(** * oem.compare: relative-motion comparison of ephemeris states and segments

    A shallow embedding of [src/oem/compare.py] and the properties of its
    two classes, [StateCompare] and [SegmentCompare].

    Modelling conventions.
    - A numpy array of three floats is a vector of three real numbers
      ([Vec.t]); [np.linalg.norm], [np.cross], [ndarray.dot] and the
      division of an array by a scalar are the corresponding operations
      on reals.  Floating-point rounding is not modelled.
    - A Python method that may raise and may touch mutable state is a
      computation in the state-and-error monad [Py St A]: it maps a state
      to a result ([inl] exception or [inr] value) and a final state.
    - Frame and centre identifiers are ASCII strings; [str.upper] is the
      ASCII upper-casing.
    - An epoch is an instant on a totally ordered, discrete time scale
      (a tick count, [Z]); a sampling step is a number of ticks. *)

From Stdlib Require Import ZArith List String Ascii Bool Reals Lra Lia.
Import ListNotations.

Set Implicit Arguments.

(* ================================================================= *)
(** ** Three-dimensional real vectors (numpy arrays of shape (3,)) *)

Module Vec.

Record t : Type := mk { x : R; y : R; z : R }.

Arguments mk (x y z)%_R.

Definition zero : t := mk 0 0 0.

(** [a - b] on arrays. *)
Definition sub (a b : t) : t :=
  mk (x a - x b) (y a - y b) (z a - z b).

(** [a / s] for an array [a] and a scalar [s]. *)
Definition div (a : t) (s : R) : t :=
  mk (x a / s) (y a / s) (z a / s).

(** [k * a]. *)
Definition scale (k : R) (a : t) : t :=
  mk (k * x a) (k * y a) (k * z a).

(** [a.dot(b)] for two vectors. *)
Definition dot (a b : t) : R :=
  x a * x b + y a * y b + z a * z b.

(** [np.cross(a, b)]. *)
Definition cross (a b : t) : t :=
  mk (y a * z b - z a * y b)
     (z a * x b - x a * z b)
     (x a * y b - y a * x b).

(** [np.linalg.norm(a)]: the Euclidean norm. *)
Definition norm (a : t) : R := sqrt (dot a a).

(** A 3x3 array given by its rows, and [R.dot(vector)]. *)
Record matrix : Type := rows { row0 : t; row1 : t; row2 : t }.

Definition mdot (m : matrix) (v : t) : t :=
  mk (dot (row0 m) v) (dot (row1 m) v) (dot (row2 m) v).

(** Two vectors are parallel when one is a scalar multiple of the other. *)
Definition parallel (a b : t) : Prop :=
  exists k : R, b = scale k a \/ a = scale k b.

Definition unit (a : t) : Prop := dot a a = 1%R.

Definition orthogonal (a b : t) : Prop := dot a b = 0%R.

End Vec.

(* ================================================================= *)
(** ** Exceptions, warnings and the monad of Python computations *)

Definition Epoch : Type := Z.

(** A message is the sequence of pieces of an f-string: literal text and
    formatted epochs ([f"{epoch}"]). *)
Inductive fragment : Type :=
| Text (s : string)
| Fmt (e : Epoch).

Definition message : Type := list fragment.

Inductive exn : Type :=
| ValueError (m : message)
| NotImplementedError (m : message)
| TypeError (m : message)
| KeyError (k : string).

Inductive Warning : Type :=
| UserWarning (m : message).

Definition result (A : Type) : Type := (exn + A)%type.

Definition Py (St A : Type) : Type := St -> result A * St.

Definition ret {St A} (a : A) : Py St A := fun s => (inr a, s).

Definition raise {St A} (e : exn) : Py St A := fun s => (inl e, s).

Definition bind {St A B} (m : Py St A) (k : A -> Py St B) : Py St B :=
  fun s =>
    match m s with
    | (inl e, s') => (inl e, s')
    | (inr a, s') => k a s'
    end.

Definition get {St} : Py St St := fun s => (inr s, s).

(** Lifting of a fallible pure call. *)
Definition lift {St A} (r : result A) : Py St A := fun s => (r, s).

(** Running a computation on part of the state. *)
Definition zoom {St Sub A} (proj : St -> Sub) (upd : St -> Sub -> St)
    (m : Py Sub A) : Py St A :=
  fun s => let (r, sub') := m (proj s) in (r, upd s sub').

Declare Scope py_scope.
Delimit Scope py_scope with py.
Notation "x <- m ;; k" := (bind m (fun x => k))
  (at level 61, m at next level, right associativity) : py_scope.
Notation "m ;;; k" := (bind m (fun _ => k))
  (at level 61, right associativity) : py_scope.

(** [warnings.warn(msg, UserWarning)] appends to the log of warnings. *)
Definition warn (w : Warning) : Py (list Warning) unit :=
  fun log => (inr tt, log ++ [w]).

(* ================================================================= *)
(** ** Strings: [str.upper] and [x in list] *)

Definition upper_ascii (c : ascii) : ascii :=
  let n := nat_of_ascii c in
  if (97 <=? n)%nat && (n <=? 122)%nat then ascii_of_nat (n - 32) else c.

Fixpoint upper (s : string) : string :=
  match s with
  | EmptyString => EmptyString
  | String c s' => String (upper_ascii c) (upper s')
  end.

(** [s in l] for a list of strings. *)
Definition str_in (s : string) (l : list string) : bool :=
  existsb (String.eqb s) l.

(* ================================================================= *)
(** ** Module constants *)

(** [REFERENCE_FRAMES], a dict from a class name to a list of frames. *)
Definition REFERENCE_FRAMES : list (string * list string) :=
  [ ("inertial"%string,
     ["EME2000"; "GCRF"; "ICRF"; "MCI"; "TEME"; "TOD"]%string);
    ("rotating"%string,
     ["GRC"; "ITRF2000"; "ITRF-93"; "ITRF-97"; "TDR"]%string) ].

(** [d[key]] on a dict with string keys. *)
Fixpoint getitem {A} (d : list (string * A)) (key : string) : result A :=
  match d with
  | [] => inl (KeyError key)
  | (k, v) :: d' => if String.eqb k key then inr v else getitem d' key
  end.

(* ================================================================= *)
(** ** State: the Cartesian state supplied by the interpolation *)

Module State.

Record t : Type := mk {
  epoch : Epoch;
  frame : string;
  center : string;
  position : Vec.t;
  velocity : Vec.t
}.

Arguments mk epoch%_Z frame%_string center%_string position velocity.

End State.

(* ================================================================= *)
(** ** StateCompare *)

Module StateCompare.

(** The attributes set by [__init__]. *)
Record t : Type := mk {
  _origin : State.t;
  _target : State.t;
  _inertial : bool
}.

Definition mismatch_message : message :=
  [Text "Incompatible states: epoch, frame, or central body mismatch."].

Definition nonstandard_message (frame : string) : message :=
  [Text "Nonstandard frame: '"; Text frame;
   Text "'. Assuming intertial. Override with ._inertial=False"].

Definition not_inertial_message : message :=
  [Text ("Velocity compares not supported for non-inertial frames. "
         ++ "To override, set ._inertial=True.")].

(** [StateCompare(origin, target)]; the state is the log of warnings. *)
Definition __init__ (origin target : State.t) : Py (list Warning) t :=
  (if (State.epoch origin =? State.epoch target)%Z
      && (State.frame origin =? State.frame target)%string
      && (State.center origin =? State.center target)%string
   then
     inertial <- lift (getitem REFERENCE_FRAMES "inertial") ;;
     if str_in (upper (State.frame origin)) inertial
     then ret (mk origin target true)
     else
       rotating <- lift (getitem REFERENCE_FRAMES "rotating") ;;
       if str_in (upper (State.frame origin)) rotating
       then ret (mk origin target false)
       else
         warn (UserWarning (nonstandard_message (State.frame origin))) ;;;
         ret (mk origin target true)
   else raise (ValueError mismatch_message))%py.

(** The methods and properties run on the object [self]. *)
Definition _require_inertial : Py t unit :=
  (self <- get ;;
   if negb (_inertial self)
   then raise (NotImplementedError not_inertial_message)
   else ret tt)%py.

Definition _to_ric (vector : Vec.t) : Py t Vec.t :=
  (_require_inertial ;;;
   self <- get ;;
   let cross_track :=
     Vec.cross (State.position (_origin self))
               (State.velocity (_origin self)) in
   let in_track := Vec.cross cross_track (State.position (_origin self)) in
   let R := Vec.rows
     (Vec.div (State.position (_origin self))
              (Vec.norm (State.position (_origin self))))
     (Vec.div in_track (Vec.norm in_track))
     (Vec.div cross_track (Vec.norm cross_track)) in
   ret (Vec.mdot R vector))%py.

Definition range : Py t R :=
  (self <- get ;;
   ret (Vec.norm (Vec.sub (State.position (_target self))
                          (State.position (_origin self)))))%py.

Definition range_rate : Py t R :=
  (_require_inertial ;;;
   self <- get ;;
   ret (Vec.norm (Vec.sub (State.velocity (_target self))
                          (State.velocity (_origin self)))))%py.

Definition position : Py t Vec.t :=
  (self <- get ;;
   ret (Vec.sub (State.position (_target self))
                (State.position (_origin self))))%py.

Definition velocity : Py t Vec.t :=
  (_require_inertial ;;;
   self <- get ;;
   ret (Vec.sub (State.velocity (_target self))
                (State.velocity (_origin self))))%py.

Definition position_ric : Py t Vec.t :=
  (p <- position ;; _to_ric p)%py.

Definition velocity_ric : Py t Vec.t :=
  (v <- velocity ;; _to_ric v)%py.

(** The rotation matrix [R] that [_to_ric] builds from an origin state. *)
Definition ric_matrix (origin : State.t) : Vec.matrix :=
  let cross_track :=
    Vec.cross (State.position origin) (State.velocity origin) in
  let in_track := Vec.cross cross_track (State.position origin) in
  Vec.rows
    (Vec.div (State.position origin) (Vec.norm (State.position origin)))
    (Vec.div in_track (Vec.norm in_track))
    (Vec.div cross_track (Vec.norm cross_track)).

End StateCompare.

(* ================================================================= *)
(** ** Collaborators of SegmentCompare *)

(** A span is the pair of its first and last epoch. *)
Definition Span : Type := (Epoch * Epoch)%type.

(** A Python iterator: a current position and the effect of [next] on it,
    which raises, stops ([None]) or yields an item and a new position. *)
Record iterator (A : Type) : Type := {
  it_state : Type;
  it_start : it_state;
  it_next : it_state -> result (option (A * it_state))
}.

Definition it_advance {A} (it : iterator A) (s : it_state it) : iterator A :=
  {| it_state := it_state it; it_start := s; it_next := it_next it |}.

(** The three functions imported from [oem.tools].  Their code is not part
    of the module; SegmentCompare is verified for every implementation. *)
Class SpanTools : Type := {
  epoch_span_overlap : Span -> Span -> option Span;
  epoch_span_contains : Span -> Epoch -> bool;
  time_range : Epoch -> Epoch -> Z -> iterator Epoch
}.

(** Modelled from the spec: [overlap], the span-overlap operation of
    oem.tools ([epoch_span_overlap]), which is missing from the sources.
    The overlap of two spans is their intersection, and it is empty when
    they have no epoch in common. *)
Definition overlap (a b : Span) : option Span :=
  let max_start := Z.max (fst a) (fst b) in
  let min_end := Z.min (snd a) (snd b) in
  if (max_start <=? min_end)%Z then Some (max_start, min_end) else None.

(** Modelled from the spec: [contains], the containment test of oem.tools
    ([epoch_span_contains]), which is missing from the sources.  A span
    is a closed interval of epochs. *)
Definition contains (s : Span) (e : Epoch) : bool :=
  ((fst s <=? e) && (e <=? snd s))%Z.

(** Modelled from the spec: [uniform_range], the uniform time-range
    generator of oem.tools ([time_range]), which is missing from the
    sources.  It runs from the start of the span in equal steps and
    produces the epochs that lie in the span. *)
Definition uniform_range (start stop step : Z) : iterator Epoch :=
  {| it_state := Z;
     it_start := start;
     it_next := fun cur =>
       if (cur <=? stop)%Z then inr (Some (cur, (cur + step)%Z))
       else inr None |}.

(** The span utilities of the specification, used for the examples. *)
Definition spec_tools : SpanTools :=
  {| epoch_span_overlap := overlap;
     epoch_span_contains := contains;
     time_range := uniform_range |}.

(** EphemerisSegment, as far as SegmentCompare uses it: the metadata with
    its two keywords, the span, and the evaluation [segment(epoch)]. *)
Module EphemerisSegment.

Record Metadata : Type := {
  REF_FRAME : string;
  CENTER_NAME : string
}.

Record t : Type := mk {
  metadata : Metadata;
  span : Span;
  __call__ : Epoch -> result State.t
}.

End EphemerisSegment.

(** Modelled from the spec: [State.__sub__], the state differencing of the
    State class, which is missing from the sources.  Differencing two
    states produces the comparison object of SegmentCompare's evaluation,
    "per the differencing direction target - origin": in [a - b] the
    minuend [a] is the target and the subtrahend [b] the origin. *)
Definition State_sub (self other : State.t) : Py (list Warning) StateCompare.t :=
  StateCompare.__init__ other self.

(* ================================================================= *)
(** ** SegmentCompare *)

Module SegmentCompare.
Section WithTools.

Context {tools : SpanTools}.

Record t : Type := mk {
  _span : option Span;
  _origin : EphemerisSegment.t;
  _target : EphemerisSegment.t
}.

(** What a method can read and change: the object and the warnings. *)
Record world : Type := World {
  self : t;
  log : list Warning
}.

Definition set_log (w : world) (l : list Warning) : world :=
  World (self w) l.

Definition mismatch_message : message :=
  [Text "Incompatible states: frame or central body mismatch."].

Definition not_contained_message (epoch : Epoch) : message :=
  [Text "Epoch "; Fmt epoch; Text " not contained in SegmentCompare."].

(** The failure of unpacking [None] with a star in a call. *)
Definition unpack_message : message :=
  [Text "time_range() argument after * must be an iterable, not NoneType"].

Definition __init__ {St} (origin target : EphemerisSegment.t) : Py St t :=
  let mo := EphemerisSegment.metadata origin in
  let mt := EphemerisSegment.metadata target in
  if (EphemerisSegment.REF_FRAME mo =? EphemerisSegment.REF_FRAME mt)%string
     && (EphemerisSegment.CENTER_NAME mo
         =? EphemerisSegment.CENTER_NAME mt)%string
  then
    ret (mk (epoch_span_overlap (EphemerisSegment.span origin)
                                (EphemerisSegment.span target))
            origin target)
  else raise (ValueError mismatch_message).

Definition __contains__ (epoch : Epoch) : Py world bool :=
  (w <- get ;;
   ret (match _span (self w) with
        | None => false
        | Some s => epoch_span_contains s epoch
        end))%py.

Definition __call__ (epoch : Epoch) : Py world StateCompare.t :=
  (c <- __contains__ epoch ;;
   if negb c
   then raise (ValueError (not_contained_message epoch))
   else
     w <- get ;;
     target_state <- lift (EphemerisSegment.__call__ (_target (self w)) epoch) ;;
     origin_state <- lift (EphemerisSegment.__call__ (_origin (self w)) epoch) ;;
     zoom log set_log (State_sub target_state origin_state))%py.

(** The generator object of [steps]: before its first [next] the body
    has not run and only the argument is bound; afterwards it is
    suspended in the loop over the iterator of [time_range]. *)
Inductive generator : Type :=
| Created (step_size : Z)
| Suspended (epochs : iterator Epoch).

(** One turn of [for epoch in epochs: yield self(epoch)]. *)
Definition resume (epochs : iterator Epoch)
  : Py world (option (StateCompare.t * generator)) :=
  match it_next epochs (it_start epochs) with
  | inl e => raise e
  | inr None => ret None
  | inr (Some (epoch, s')) =>
      (sc <- __call__ epoch ;;
       ret (Some (sc, Suspended (it_advance epochs s'))))%py
  end.

(** [self.steps(step_size)]: the call only creates the generator. *)
Definition steps (step_size : Z) : generator := Created step_size.

(** [next(g)]: raises, ends the iteration ([None]) or yields an item
    and the generator to continue with. *)
Definition next (g : generator)
  : Py world (option (StateCompare.t * generator)) :=
  match g with
  | Created step_size =>
      (w <- get ;;
       match _span (self w) with
       | None => raise (TypeError unpack_message)
       | Some (start, stop) => resume (time_range start stop step_size)
       end)%py
  | Suspended epochs => resume epochs
  end.

(** The first [n] items of a generator, [list(islice(g, n))]. *)
Fixpoint take (n : nat) (g : generator) : Py world (list StateCompare.t) :=
  match n with
  | O => ret []
  | S n' =>
      (r <- next g ;;
       match r with
       | None => ret []
       | Some (sc, g') => rest <- take n' g' ;; ret (sc :: rest)
       end)%py
  end.

Definition is_empty : Py world bool :=
  (w <- get ;;
   ret (match _span (self w) with None => true | Some _ => false end))%py.

End WithTools.
End SegmentCompare.

(* ================================================================= *)
(** ** Vocabulary of the properties *)

(** The two frame sets of the specification. *)
Definition INERTIAL : list string :=
  ["EME2000"; "GCRF"; "ICRF"; "MCI"; "TEME"; "TOD"]%string.

Definition ROTATING : list string :=
  ["GRC"; "ITRF2000"; "ITRF-93"; "ITRF-97"; "TDR"]%string.

(** An identifier belongs to a set case-insensitively when it equals one
    of its members up to the case of the letters. *)
Definition frame_in (frame : string) (set : list string) : Prop :=
  exists member, In member set /\ upper member = upper frame.

(** Two states share epoch, frame and centre. *)
Definition shared (origin target : State.t) : Prop :=
  State.epoch origin = State.epoch target
  /\ State.frame origin = State.frame target
  /\ State.center origin = State.center target.

(** Which of epoch, frame and centre disagree between two states. *)
Definition disagreeing (origin target : State.t) : bool * bool * bool :=
  (negb (State.epoch origin =? State.epoch target)%Z,
   negb (State.frame origin =? State.frame target)%string,
   negb (State.center origin =? State.center target)%string).

(** The access fails with the exception for an unsupported operation. *)
Definition unsupported {A} (r : result A) : Prop :=
  exists m, r = inl (NotImplementedError m).

(** A message contains the given text in one of its literal pieces. *)
Definition mentions (m : message) (s : string) : bool :=
  existsb (fun f => match f with
                    | Text t => match index 0 s t with
                                | Some _ => true
                                | None => false
                                end
                    | Fmt _ => false
                    end) m.

(** A message contains the given epoch as a formatted piece. *)
Definition formats (m : message) (e : Epoch) : bool :=
  existsb (fun f => match f with
                    | Text _ => false
                    | Fmt e' => (e' =? e)%Z
                    end) m.

(** The value of [epoch in self] for the comparison of a world. *)
Definition inside {tools : SpanTools} (w : SegmentCompare.world)
    (epoch : Epoch) : bool :=
  match SegmentCompare._span (SegmentCompare.self w) with
  | None => false
  | Some s => epoch_span_contains s epoch
  end.

(** The first [n] items of an iterator, [islice(it, n)], and the
    exception that cut the iteration short, if one did. *)
Fixpoint it_take {A} (n : nat) (it : iterator A) : list A * option exn :=
  match n with
  | O => ([], None)
  | S n' =>
      match it_next it (it_start it) with
      | inl e => ([], Some e)
      | inr None => ([], None)
      | inr (Some (a, s')) =>
          let (l, r) := it_take n' (it_advance it s') in (a :: l, r)
      end
  end.

(** [[self(epoch) for epoch in epochs]]: the comparison evaluated at each
    epoch of a list, in order. *)
Fixpoint calls {tools : SpanTools} (epochs : list Epoch)
  : Py SegmentCompare.world (list StateCompare.t) :=
  match epochs with
  | [] => ret []
  | epoch :: rest =>
      (sc <- SegmentCompare.__call__ epoch ;;
       scs <- calls rest ;;
       ret (sc :: scs))%py
  end.

(** A segment answers for itself when every state it returns carries the
    epoch asked for and the frame and the centre of its metadata. *)
Definition conforming (segment : EphemerisSegment.t) : Prop :=
  forall epoch state,
    EphemerisSegment.__call__ segment epoch = inr state ->
    State.epoch state = epoch
    /\ State.frame state
       = EphemerisSegment.REF_FRAME (EphemerisSegment.metadata segment)
    /\ State.center state
       = EphemerisSegment.CENTER_NAME (EphemerisSegment.metadata segment).

(* ================================================================= *)
(** ** Sample inputs *)

Module Sample.

(** The states of the first two scenarios of the specification. *)
Definition origin (frame : string) : State.t :=
  State.mk 0 frame "EARTH" (Vec.mk 7000 0 0) (Vec.mk 0 (15 / 2) 0).

Definition target (frame : string) : State.t :=
  State.mk 0 frame "EARTH" (Vec.mk 7000 10 0) (Vec.mk 0 (15 / 2) (1 / 10)).

(** The target one tick later. *)
Definition late_target (frame : string) : State.t :=
  State.mk 1 frame "EARTH" (Vec.mk 7000 10 0) (Vec.mk 0 (15 / 2) (1 / 10)).

(** Segments that hold a constant state over their span. *)
Definition segment (frame : string) (span : Span) (p v : Vec.t)
  : EphemerisSegment.t :=
  EphemerisSegment.mk
    {| EphemerisSegment.REF_FRAME := frame;
       EphemerisSegment.CENTER_NAME := "EARTH" |}
    span
    (fun e => inr (State.mk e frame "EARTH" p v)).

Definition origin_segment (span : Span) : EphemerisSegment.t :=
  segment "EME2000" span (Vec.mk 7000 0 0) (Vec.mk 0 (15 / 2) 0).

Definition target_segment (span : Span) : EphemerisSegment.t :=
  segment "EME2000" span (Vec.mk 7000 10 0) (Vec.mk 0 (15 / 2) (1 / 10)).

(** An active comparison over [lo, hi] and an empty one. *)
Definition active (lo hi : Z) : SegmentCompare.world :=
  SegmentCompare.World
    (SegmentCompare.mk (Some (lo, hi))
       (origin_segment (lo, hi)) (target_segment (lo, hi)))
    [].

Definition empty : SegmentCompare.world :=
  SegmentCompare.World
    (SegmentCompare.mk None
       (origin_segment (0, 10)%Z) (target_segment (20, 30)%Z))
    [].

(** A segment whose evaluation raises at every epoch, and a segment that
    answers in another frame than its metadata announce. *)
Definition failing_segment (span : Span) : EphemerisSegment.t :=
  EphemerisSegment.mk
    {| EphemerisSegment.REF_FRAME := "EME2000";
       EphemerisSegment.CENTER_NAME := "EARTH" |}
    span
    (fun e => inl (ValueError
                     [Text "Epoch "; Fmt e;
                      Text " not contained in EphemerisSegment."])).

Definition straying_segment (span : Span) : EphemerisSegment.t :=
  EphemerisSegment.mk
    {| EphemerisSegment.REF_FRAME := "EME2000";
       EphemerisSegment.CENTER_NAME := "EARTH" |}
    span
    (fun e => inr (State.mk e "GCRF" "EARTH" Vec.zero Vec.zero)).

(** A comparison over [lo, hi] of two given segments. *)
Definition comparison (lo hi : Z) (origin target : EphemerisSegment.t)
  : SegmentCompare.world :=
  SegmentCompare.World (SegmentCompare.mk (Some (lo, hi)) origin target) [].

End Sample.

(* ================================================================= *)
(** ** Frame classification *)

Lemma str_in_In (s : string) (l : list string) :
  str_in s l = true <-> In s l.
Proof.
  unfold str_in. rewrite existsb_exists. split.
  - intros [x [Hx Heq]]. apply String.eqb_eq in Heq. now subst.
  - intros H. exists s. split; [assumption | apply String.eqb_refl].
Qed.

Lemma upper_members :
  forall member, In member (INERTIAL ++ ROTATING) -> upper member = member.
Proof.
  intros member H. simpl in H.
  repeat (destruct H as [H | H]; [subst; reflexivity | ]).
  contradiction.
Qed.

Lemma frame_in_str_in (frame : string) (set : list string) :
  (forall member, In member set -> upper member = member) ->
  str_in (upper frame) set = true <-> frame_in frame set.
Proof.
  intros Hfix. rewrite str_in_In. split.
  - intros H. exists (upper frame). split; [assumption | ].
    now apply Hfix.
  - intros [member [Hin Heq]]. rewrite <- Heq, (Hfix _ Hin). assumption.
Qed.

Lemma frame_in_inertial (frame : string) :
  str_in (upper frame) INERTIAL = true <-> frame_in frame INERTIAL.
Proof.
  apply frame_in_str_in. intros m Hm. apply upper_members.
  apply in_or_app. now left.
Qed.

Lemma frame_in_rotating (frame : string) :
  str_in (upper frame) ROTATING = true <-> frame_in frame ROTATING.
Proof.
  apply frame_in_str_in. intros m Hm. apply upper_members.
  apply in_or_app. now right.
Qed.

(** No identifier belongs to both sets. *)
Lemma inertial_not_rotating (s : string) :
  str_in s INERTIAL = true -> str_in s ROTATING = false.
Proof.
  intros H. apply str_in_In in H. simpl in H.
  repeat (destruct H as [H | H]; [subst; reflexivity | ]).
  contradiction.
Qed.

Lemma shared_test (origin target : State.t) :
  ((State.epoch origin =? State.epoch target)%Z
   && (State.frame origin =? State.frame target)%string
   && (State.center origin =? State.center target)%string) = true
  <-> shared origin target.
Proof.
  unfold shared. rewrite !andb_true_iff, Z.eqb_eq, !String.eqb_eq. tauto.
Qed.

Lemma getitem_inertial :
  getitem REFERENCE_FRAMES "inertial" = inr INERTIAL.
Proof. reflexivity. Qed.

Lemma getitem_rotating :
  getitem REFERENCE_FRAMES "rotating" = inr ROTATING.
Proof. reflexivity. Qed.

(** What the constructor does on compatible states, case by case. *)
Lemma init_shared (origin target : State.t) (log : list Warning) :
  shared origin target ->
  StateCompare.__init__ origin target log =
    if str_in (upper (State.frame origin)) INERTIAL
    then (inr (StateCompare.mk origin target true), log)
    else if str_in (upper (State.frame origin)) ROTATING
    then (inr (StateCompare.mk origin target false), log)
    else (inr (StateCompare.mk origin target true),
          log ++ [UserWarning
                    (StateCompare.nonstandard_message (State.frame origin))]).
Proof.
  intros H. apply shared_test in H. unfold StateCompare.__init__.
  rewrite H, getitem_inertial, getitem_rotating.
  unfold bind, lift.
  destruct (str_in (upper (State.frame origin)) INERTIAL); [reflexivity | ].
  destruct (str_in (upper (State.frame origin)) ROTATING); reflexivity.
Qed.

Lemma init_not_shared (origin target : State.t) (log : list Warning) :
  ~ shared origin target ->
  StateCompare.__init__ origin target log =
    (inl (ValueError StateCompare.mismatch_message), log).
Proof.
  intros H. unfold StateCompare.__init__.
  destruct ((State.epoch origin =? State.epoch target)%Z
            && (State.frame origin =? State.frame target)%string
            && (State.center origin =? State.center target)%string) eqn:E.
  - apply shared_test in E. contradiction.
  - reflexivity.
Qed.

(** A constructed comparison keeps its two states, and its flag is false
    exactly for the rotating frames. *)
Lemma init_inversion (origin target : State.t) (log log' : list Warning)
    (sc : StateCompare.t) :
  StateCompare.__init__ origin target log = (inr sc, log') ->
  shared origin target
  /\ StateCompare._origin sc = origin
  /\ StateCompare._target sc = target
  /\ (StateCompare._inertial sc = false
      <-> frame_in (State.frame origin) ROTATING).
Proof.
  intros H.
  assert (Hs : shared origin target).
  { apply shared_test.
    destruct ((State.epoch origin =? State.epoch target)%Z
              && (State.frame origin =? State.frame target)%string
              && (State.center origin =? State.center target)%string) eqn:E;
      [reflexivity | ].
    unfold StateCompare.__init__ in H. rewrite E in H. discriminate H. }
  split; [assumption | ].
  rewrite (init_shared log Hs) in H.
  rewrite <- frame_in_rotating.
  destruct (str_in (upper (State.frame origin)) INERTIAL) eqn:Ei.
  - apply inertial_not_rotating in Ei. rewrite Ei.
    injection H as <- _. cbn. repeat split; discriminate.
  - destruct (str_in (upper (State.frame origin)) ROTATING) eqn:Er;
      injection H as <- _; cbn; repeat split; congruence.
Qed.

(* ================================================================= *)
(** ** StateCompare: the derived quantities *)

Lemma require_inertial_true (sc : StateCompare.t) :
  StateCompare._inertial sc = true ->
  StateCompare._require_inertial sc = (inr tt, sc).
Proof.
  intros H. unfold StateCompare._require_inertial, bind, get.
  now rewrite H.
Qed.

Lemma require_inertial_false (sc : StateCompare.t) :
  StateCompare._inertial sc = false ->
  StateCompare._require_inertial sc =
    (inl (NotImplementedError StateCompare.not_inertial_message), sc).
Proof.
  intros H. unfold StateCompare._require_inertial, bind, get.
  now rewrite H.
Qed.

(** On an inertial comparison [_to_ric] multiplies by the matrix of the
    origin state. *)
Lemma to_ric_inertial (sc : StateCompare.t) (vector : Vec.t) :
  StateCompare._inertial sc = true ->
  StateCompare._to_ric vector sc =
    (inr (Vec.mdot (StateCompare.ric_matrix (StateCompare._origin sc)) vector),
     sc).
Proof.
  intros H. unfold StateCompare._to_ric, bind.
  now rewrite (require_inertial_true sc H).
Qed.

Lemma to_ric_rotating (sc : StateCompare.t) (vector : Vec.t) :
  StateCompare._inertial sc = false ->
  StateCompare._to_ric vector sc =
    (inl (NotImplementedError StateCompare.not_inertial_message), sc).
Proof.
  intros H. unfold StateCompare._to_ric, bind.
  now rewrite (require_inertial_false sc H).
Qed.

(** Each guarded quantity fails on a rotating comparison and returns a
    value on an inertial one; neither changes the object. *)
Ltac guarded H :=
  unfold StateCompare.velocity, StateCompare.range_rate,
    StateCompare.position_ric, StateCompare.velocity_ric,
    StateCompare.position, bind, get, ret;
  first [ rewrite (require_inertial_true _ H)
        | rewrite (require_inertial_false _ H)
        | idtac ];
  first [ rewrite (to_ric_inertial _ _ H)
        | rewrite (to_ric_rotating _ _ H)
        | idtac ];
  try reflexivity.

Lemma velocity_rotating (sc : StateCompare.t) :
  StateCompare._inertial sc = false ->
  StateCompare.velocity sc =
    (inl (NotImplementedError StateCompare.not_inertial_message), sc).
Proof. intros H. guarded H. Qed.

Lemma velocity_inertial (sc : StateCompare.t) :
  StateCompare._inertial sc = true ->
  StateCompare.velocity sc =
    (inr (Vec.sub (State.velocity (StateCompare._target sc))
                  (State.velocity (StateCompare._origin sc))), sc).
Proof. intros H. guarded H. Qed.

Lemma range_rate_rotating (sc : StateCompare.t) :
  StateCompare._inertial sc = false ->
  StateCompare.range_rate sc =
    (inl (NotImplementedError StateCompare.not_inertial_message), sc).
Proof. intros H. guarded H. Qed.

Lemma range_rate_inertial (sc : StateCompare.t) :
  StateCompare._inertial sc = true ->
  StateCompare.range_rate sc =
    (inr (Vec.norm (Vec.sub (State.velocity (StateCompare._target sc))
                            (State.velocity (StateCompare._origin sc)))), sc).
Proof. intros H. guarded H. Qed.

Lemma velocity_ric_rotating (sc : StateCompare.t) :
  StateCompare._inertial sc = false ->
  StateCompare.velocity_ric sc =
    (inl (NotImplementedError StateCompare.not_inertial_message), sc).
Proof.
  intros H. unfold StateCompare.velocity_ric, bind.
  now rewrite (velocity_rotating sc H).
Qed.

Lemma velocity_ric_inertial (sc : StateCompare.t) :
  StateCompare._inertial sc = true ->
  StateCompare.velocity_ric sc =
    (inr (Vec.mdot (StateCompare.ric_matrix (StateCompare._origin sc))
            (Vec.sub (State.velocity (StateCompare._target sc))
                     (State.velocity (StateCompare._origin sc)))), sc).
Proof.
  intros H. unfold StateCompare.velocity_ric, bind.
  now rewrite (velocity_inertial sc H), (to_ric_inertial sc _ H).
Qed.

Lemma position_ric_rotating (sc : StateCompare.t) :
  StateCompare._inertial sc = false ->
  StateCompare.position_ric sc =
    (inl (NotImplementedError StateCompare.not_inertial_message), sc).
Proof.
  intros H. unfold StateCompare.position_ric, StateCompare.position, bind, get, ret.
  now rewrite (to_ric_rotating sc _ H).
Qed.

Lemma position_ric_inertial (sc : StateCompare.t) :
  StateCompare._inertial sc = true ->
  StateCompare.position_ric sc =
    (inr (Vec.mdot (StateCompare.ric_matrix (StateCompare._origin sc))
            (Vec.sub (State.position (StateCompare._target sc))
                     (State.position (StateCompare._origin sc)))), sc).
Proof.
  intros H. unfold StateCompare.position_ric, StateCompare.position, bind, get, ret.
  now rewrite (to_ric_inertial sc _ H).
Qed.

(** A guarded access is unsupported exactly when the flag is false. *)
Lemma unsupported_iff {A} (q : Py StateCompare.t A) (sc : StateCompare.t)
    (a : A) :
  (StateCompare._inertial sc = false ->
   q sc = (inl (NotImplementedError StateCompare.not_inertial_message), sc)) ->
  (StateCompare._inertial sc = true -> q sc = (inr a, sc)) ->
  unsupported (fst (q sc)) <-> StateCompare._inertial sc = false.
Proof.
  intros Hf Ht. destruct (StateCompare._inertial sc) eqn:E.
  - rewrite (Ht eq_refl). cbn. split; [ | discriminate].
    intros [m Hm]. discriminate Hm.
  - rewrite (Hf eq_refl). cbn. split; [reflexivity | ].
    intros _. now exists StateCompare.not_inertial_message.
Qed.

(** Construction succeeds on compatible states. *)
Lemma init_shared_returns (origin target : State.t) (log : list Warning) :
  shared origin target ->
  exists sc log', StateCompare.__init__ origin target log = (inr sc, log').
Proof.
  intros Hs. rewrite (init_shared log Hs).
  destruct (str_in _ INERTIAL); [ | destruct (str_in _ ROTATING)];
    eexists; eexists; reflexivity.
Qed.

(** C1.  For all origin and target states sharing epoch, frame and centre,
    the comparison is constructed, its position is the target position
    minus the origin position, component by component, and its range is
    the Euclidean norm of that position. *)
Theorem position_range_of_shared_states
    (origin target : State.t) (log : list Warning) :
  shared origin target ->
  exists sc log' p,
    StateCompare.__init__ origin target log = (inr sc, log')
    /\ fst (StateCompare.position sc) = inr p
    /\ Vec.x p = (Vec.x (State.position target)
                  - Vec.x (State.position origin))%R
    /\ Vec.y p = (Vec.y (State.position target)
                  - Vec.y (State.position origin))%R
    /\ Vec.z p = (Vec.z (State.position target)
                  - Vec.z (State.position origin))%R
    /\ fst (StateCompare.range sc) = inr (Vec.norm p).
Proof.
  intros Hs.
  destruct (init_shared_returns log Hs) as (sc & log' & E).
  destruct (init_inversion _ _ _ E) as (_ & Ho & Ht & _).
  exists sc, log', (Vec.sub (State.position target) (State.position origin)).
  split; [exact E | ].
  unfold StateCompare.position, StateCompare.range, bind, get, ret.
  rewrite Ho, Ht. cbn. repeat split; reflexivity.
Qed.

Lemma position_range_of_shared_states_witness :
  shared (Sample.origin "EME2000") (Sample.target "EME2000")
  /\ exists sc log' p,
       StateCompare.__init__
         (Sample.origin "EME2000") (Sample.target "EME2000") [] = (inr sc, log')
       /\ fst (StateCompare.position sc) = inr p
       /\ Vec.x p = (7000 - 7000)%R
       /\ Vec.y p = (10 - 0)%R
       /\ Vec.z p = (0 - 0)%R
       /\ fst (StateCompare.range sc) = inr (Vec.norm p).
Proof.
  assert (H : shared (Sample.origin "EME2000") (Sample.target "EME2000")).
  { repeat split; reflexivity. }
  split; [exact H | ].
  exact (position_range_of_shared_states [] H).
Defined.

(** C2.  On every comparison constructed from two states, with the flag
    as the constructor set it, position and range return a value whatever
    the classification of the frame, and velocity, velocity_ric and
    range_rate fail as unsupported if and only if the origin frame is
    one of the rotating frames. *)
Theorem velocity_quantities_guarded
    (origin target : State.t) (log log' : list Warning) (sc : StateCompare.t) :
  StateCompare.__init__ origin target log = (inr sc, log') ->
  (exists p, StateCompare.position sc = (inr p, sc))
  /\ (exists r, StateCompare.range sc = (inr r, sc))
  /\ (unsupported (fst (StateCompare.velocity sc))
      <-> frame_in (State.frame origin) ROTATING)
  /\ (unsupported (fst (StateCompare.velocity_ric sc))
      <-> frame_in (State.frame origin) ROTATING)
  /\ (unsupported (fst (StateCompare.range_rate sc))
      <-> frame_in (State.frame origin) ROTATING).
Proof.
  intros H. destruct (init_inversion _ _ _ H) as (_ & _ & _ & Hrot).
  split; [eexists; reflexivity | ].
  split; [eexists; reflexivity | ].
  rewrite <- Hrot. split; [ | split].
  - eapply unsupported_iff; [apply velocity_rotating | apply velocity_inertial].
  - eapply unsupported_iff;
      [apply velocity_ric_rotating | apply velocity_ric_inertial].
  - eapply unsupported_iff;
      [apply range_rate_rotating | apply range_rate_inertial].
Qed.

(** The second scenario of the specification: frame ITRF2000. *)
Lemma velocity_quantities_guarded_witness :
  let sc := StateCompare.mk
              (Sample.origin "ITRF2000") (Sample.target "ITRF2000") false in
  StateCompare.__init__
    (Sample.origin "ITRF2000") (Sample.target "ITRF2000") [] = (inr sc, [])
  /\ (exists p, StateCompare.position sc = (inr p, sc))
  /\ (exists r, StateCompare.range sc = (inr r, sc))
  /\ (unsupported (fst (StateCompare.velocity sc))
      <-> frame_in "ITRF2000" ROTATING)
  /\ (unsupported (fst (StateCompare.velocity_ric sc))
      <-> frame_in "ITRF2000" ROTATING)
  /\ (unsupported (fst (StateCompare.range_rate sc))
      <-> frame_in "ITRF2000" ROTATING).
Proof.
  intros sc.
  assert (H : StateCompare.__init__
                (Sample.origin "ITRF2000") (Sample.target "ITRF2000") []
              = (inr sc, [])) by reflexivity.
  split; [exact H | ].
  exact (velocity_quantities_guarded _ _ _ H).
Defined.

(** C3, as the code has it.  Whenever epoch, frame or centre differ
    between origin and target, the construction fails with a ValueError
    that carries one fixed message, the same for every disagreement; no
    comparison object is returned and no warning is emitted. *)
Theorem init_rejects_mismatch
    (origin target : State.t) (log : list Warning) :
  State.epoch origin <> State.epoch target
  \/ State.frame origin <> State.frame target
  \/ State.center origin <> State.center target ->
  StateCompare.__init__ origin target log =
    (inl (ValueError StateCompare.mismatch_message), log).
Proof.
  intros H. apply init_not_shared. unfold shared. tauto.
Qed.

Lemma init_rejects_mismatch_witness :
  StateCompare.__init__
    (Sample.origin "EME2000") (Sample.late_target "EME2000") [] =
    (inl (ValueError StateCompare.mismatch_message), []).
Proof.
  apply (@init_rejects_mismatch
           (Sample.origin "EME2000") (Sample.late_target "EME2000") []).
  left. cbn. lia.
Defined.

(** C3 fails as stated: a disagreement of the epochs alone and a
    disagreement of the frames alone are rejected with the same error, so
    no reading of the error identifies the fields that disagree. *)
Lemma init_error_hides_the_field :
  fst (StateCompare.__init__
         (Sample.origin "EME2000") (Sample.late_target "EME2000") [])
    = inl (ValueError StateCompare.mismatch_message)
  /\ fst (StateCompare.__init__
            (Sample.origin "EME2000") (Sample.target "GCRF") [])
    = inl (ValueError StateCompare.mismatch_message)
  /\ disagreeing (Sample.origin "EME2000") (Sample.late_target "EME2000")
     = (true, false, false)
  /\ disagreeing (Sample.origin "EME2000") (Sample.target "GCRF")
     = (false, true, false)
  /\ ~ (exists identify : exn -> bool * bool * bool,
          forall origin target log,
            ~ shared origin target ->
            exists e,
              fst (StateCompare.__init__ origin target log) = inl e
              /\ identify e = disagreeing origin target).
Proof.
  repeat split; try reflexivity.
  intros [identify H].
  destruct (H (Sample.origin "EME2000") (Sample.late_target "EME2000") [])
    as (e1 & He1 & Hi1).
  { intros (He & _). cbn in He. lia. }
  destruct (H (Sample.origin "EME2000") (Sample.target "GCRF") [])
    as (e2 & He2 & Hi2).
  { intros (_ & Hf & _). cbn in Hf. discriminate Hf. }
  cbn in He1, He2. injection He1 as <-. injection He2 as <-.
  rewrite Hi1 in Hi2. cbn in Hi2. discriminate Hi2.
Qed.

(** C4.  The constructor classifies the origin frame without regard to
    the case of its letters: a member of the inertial set gives the flag
    true and no warning, a member of the rotating set gives the flag
    false and no warning, and any other identifier gives the flag true
    and one warning added to the log, the construction still succeeding. *)
Theorem frame_classification
    (origin target : State.t) (log : list Warning) :
  shared origin target ->
  (frame_in (State.frame origin) INERTIAL ->
   StateCompare.__init__ origin target log =
     (inr (StateCompare.mk origin target true), log))
  /\ (frame_in (State.frame origin) ROTATING ->
      StateCompare.__init__ origin target log =
        (inr (StateCompare.mk origin target false), log))
  /\ (~ frame_in (State.frame origin) INERTIAL ->
      ~ frame_in (State.frame origin) ROTATING ->
      StateCompare.__init__ origin target log =
        (inr (StateCompare.mk origin target true),
         log ++ [UserWarning
                   (StateCompare.nonstandard_message (State.frame origin))])).
Proof.
  intros Hs. rewrite (init_shared log Hs).
  rewrite <- frame_in_inertial, <- frame_in_rotating.
  destruct (str_in (upper (State.frame origin)) INERTIAL) eqn:Ei.
  - apply inertial_not_rotating in Ei. rewrite Ei.
    repeat split; congruence.
  - destruct (str_in (upper (State.frame origin)) ROTATING);
      repeat split; congruence.
Qed.

Lemma frame_classification_witness :
  StateCompare.__init__ (Sample.origin "gcrf") (Sample.target "gcrf") [] =
    (inr (StateCompare.mk (Sample.origin "gcrf") (Sample.target "gcrf") true),
     [])
  /\ StateCompare.__init__
       (Sample.origin "Itrf-93") (Sample.target "Itrf-93") [] =
       (inr (StateCompare.mk
               (Sample.origin "Itrf-93") (Sample.target "Itrf-93") false),
        [])
  /\ StateCompare.__init__ (Sample.origin "J2000") (Sample.target "J2000") [] =
       (inr (StateCompare.mk
               (Sample.origin "J2000") (Sample.target "J2000") true),
        [UserWarning (StateCompare.nonstandard_message "J2000")]).
Proof.
  assert (Hs : forall f, shared (Sample.origin f) (Sample.target f)).
  { intros f. repeat split; reflexivity. }
  split; [ | split].
  - apply (proj1 (frame_classification [] (Hs "gcrf"%string))).
    exists "GCRF"%string. split; [cbn; tauto | reflexivity].
  - apply (proj1 (proj2 (frame_classification [] (Hs "Itrf-93"%string)))).
    exists "ITRF-93"%string. split; [cbn; tauto | reflexivity].
  - apply (proj2 (proj2 (frame_classification [] (Hs "J2000"%string)))).
    + rewrite <- frame_in_inertial. discriminate.
    + rewrite <- frame_in_rotating. discriminate.
Defined.

(** C8, as the code has it.  On a constructed comparison whose frame is
    not classified inertial, position_ric fails as unsupported with one
    fixed message, which is that of every guarded quantity and of every
    frame; position_ric returns a value only when the frame is
    classified inertial. *)
Theorem position_ric_guarded
    (origin target : State.t) (log log' : list Warning) (sc : StateCompare.t) :
  StateCompare.__init__ origin target log = (inr sc, log') ->
  (frame_in (State.frame origin) ROTATING ->
   StateCompare.position_ric sc =
     (inl (NotImplementedError StateCompare.not_inertial_message), sc))
  /\ ((exists v, fst (StateCompare.position_ric sc) = inr v)
      <-> StateCompare._inertial sc = true)
  /\ (StateCompare._inertial sc = true
      <-> ~ frame_in (State.frame origin) ROTATING).
Proof.
  intros H. destruct (init_inversion _ _ _ H) as (_ & _ & _ & Hrot).
  split; [intros Hr; apply position_ric_rotating, Hrot, Hr | ].
  rewrite <- Hrot.
  destruct (StateCompare._inertial sc) eqn:E.
  - rewrite (position_ric_inertial sc E). cbn. split.
    + split; [reflexivity | intros _; eexists; reflexivity].
    + split; [discriminate | reflexivity].
  - rewrite (position_ric_rotating sc E). cbn. split.
    + split; [intros [v Hv]; discriminate Hv | discriminate].
    + split; [discriminate | intros Hn; now elim Hn].
Qed.

Lemma position_ric_guarded_witness :
  let sc := StateCompare.mk (Sample.origin "GRC") (Sample.target "GRC") false in
  StateCompare.__init__ (Sample.origin "GRC") (Sample.target "GRC") []
    = (inr sc, [])
  /\ StateCompare.position_ric sc =
       (inl (NotImplementedError StateCompare.not_inertial_message), sc).
Proof.
  intros sc.
  assert (H : StateCompare.__init__
                (Sample.origin "GRC") (Sample.target "GRC") []
              = (inr sc, [])) by reflexivity.
  split; [exact H | ].
  apply (proj1 (position_ric_guarded _ _ _ H)).
  exists "GRC"%string. split; [cbn; tauto | reflexivity].
Defined.

(** C8 fails as stated: the message of the failure contains neither the
    name of the requested quantity nor the frame, and it is the same
    message for another quantity and for another rotating frame. *)
Lemma position_ric_error_is_generic :
  let grc := StateCompare.mk (Sample.origin "GRC") (Sample.target "GRC") false in
  let tdr := StateCompare.mk (Sample.origin "TDR") (Sample.target "TDR") false in
  StateCompare.__init__ (Sample.origin "GRC") (Sample.target "GRC") []
    = (inr grc, [])
  /\ StateCompare.__init__ (Sample.origin "TDR") (Sample.target "TDR") []
     = (inr tdr, [])
  /\ fst (StateCompare.position_ric grc)
     = inl (NotImplementedError StateCompare.not_inertial_message)
  /\ mentions StateCompare.not_inertial_message "position_ric" = false
  /\ mentions StateCompare.not_inertial_message "GRC" = false
  /\ fst (StateCompare.position_ric tdr) = fst (StateCompare.position_ric grc)
  /\ fst (StateCompare.velocity_ric grc) = fst (StateCompare.position_ric grc).
Proof.
  cbv zeta. repeat split; reflexivity.
Qed.

(* ================================================================= *)
(** ** The RIC basis *)

Section RIC.

Local Open Scope R_scope.

Lemma dot_self_nonneg (a : Vec.t) : 0 <= Vec.dot a a.
Proof. unfold Vec.dot. nra. Qed.

Lemma dot_self_zero (a : Vec.t) : Vec.dot a a = 0 -> a = Vec.zero.
Proof.
  destruct a as [ax ay az]. unfold Vec.dot, Vec.zero. cbn. intros H.
  assert (ax = 0) by nra. assert (ay = 0) by nra. assert (az = 0) by nra.
  now subst.
Qed.

Lemma norm_sqr (a : Vec.t) : Vec.norm a * Vec.norm a = Vec.dot a a.
Proof. unfold Vec.norm. apply sqrt_sqrt, dot_self_nonneg. Qed.

Lemma norm_nonzero (a : Vec.t) : a <> Vec.zero -> Vec.norm a <> 0.
Proof.
  intros Ha Hn. apply Ha, dot_self_zero.
  apply sqrt_eq_0; [apply dot_self_nonneg | exact Hn].
Qed.

Lemma dot_div (a b : Vec.t) (s r : R) :
  s <> 0 -> r <> 0 ->
  Vec.dot (Vec.div a s) (Vec.div b r) = Vec.dot a b / (s * r).
Proof. intros Hs Hr. unfold Vec.dot, Vec.div. cbn. now field. Qed.

(** A non-zero vector divided by its norm is a unit vector. *)
Lemma normalized_unit (a : Vec.t) :
  a <> Vec.zero -> Vec.unit (Vec.div a (Vec.norm a)).
Proof.
  intros Ha. pose proof (norm_nonzero Ha) as Hn.
  unfold Vec.unit. rewrite (dot_div a a Hn Hn), norm_sqr.
  rewrite <- (norm_sqr a). now field.
Qed.

Lemma normalized_orthogonal (a b : Vec.t) :
  a <> Vec.zero -> b <> Vec.zero -> Vec.dot a b = 0 ->
  Vec.orthogonal (Vec.div a (Vec.norm a)) (Vec.div b (Vec.norm b)).
Proof.
  intros Ha Hb Hab. unfold Vec.orthogonal.
  rewrite (dot_div a b (norm_nonzero Ha) (norm_nonzero Hb)), Hab.
  unfold Rdiv. apply Rmult_0_l.
Qed.

(** The cross product is orthogonal to its two factors. *)
Lemma cross_orthogonal_l (a b : Vec.t) : Vec.dot (Vec.cross a b) a = 0.
Proof. unfold Vec.dot, Vec.cross. cbn. ring. Qed.

Lemma cross_orthogonal_r (a b : Vec.t) : Vec.dot (Vec.cross a b) b = 0.
Proof. unfold Vec.dot, Vec.cross. cbn. ring. Qed.

Lemma dot_comm (a b : Vec.t) : Vec.dot a b = Vec.dot b a.
Proof. unfold Vec.dot. ring. Qed.

(** Lagrange's identity. *)
Lemma cross_dot_self (a b : Vec.t) :
  Vec.dot (Vec.cross a b) (Vec.cross a b) =
    Vec.dot a a * Vec.dot b b - Vec.dot a b * Vec.dot a b.
Proof. unfold Vec.dot, Vec.cross. cbn. ring. Qed.

(** A vanishing cross product makes the second vector a multiple of a
    non-zero first one. *)
Lemma cross_zero_parallel (a b : Vec.t) :
  a <> Vec.zero -> Vec.cross a b = Vec.zero -> Vec.parallel a b.
Proof.
  destruct a as [ax ay az], b as [bx by_ bz].
  unfold Vec.cross, Vec.zero, Vec.parallel, Vec.scale. cbn.
  intros Ha Hc. injection Hc as H1 H2 H3.
  destruct (Req_dec ax 0) as [Hx | Hx].
  - destruct (Req_dec ay 0) as [Hy | Hy].
    + destruct (Req_dec az 0) as [Hz | Hz].
      * subst. now elim Ha.
      * exists (bz / az). left. f_equal; field_simplify_eq; trivial; nra.
    + exists (by_ / ay). left. f_equal; field_simplify_eq; trivial; nra.
  - exists (bx / ax). left. f_equal; field_simplify_eq; trivial; nra.
Qed.

Lemma cross_track_nonzero (p v : Vec.t) :
  p <> Vec.zero -> ~ Vec.parallel p v -> Vec.cross p v <> Vec.zero.
Proof. intros Hp Hn Hc. apply Hn. now apply cross_zero_parallel. Qed.

Lemma in_track_nonzero (p v : Vec.t) :
  p <> Vec.zero -> Vec.cross p v <> Vec.zero ->
  Vec.cross (Vec.cross p v) p <> Vec.zero.
Proof.
  intros Hp Hw Hs.
  assert (H : Vec.dot (Vec.cross (Vec.cross p v) p)
                      (Vec.cross (Vec.cross p v) p) = 0).
  { rewrite Hs. unfold Vec.dot, Vec.zero. cbn. ring. }
  rewrite cross_dot_self, cross_orthogonal_l in H.
  assert (Hww : Vec.dot (Vec.cross p v) (Vec.cross p v) <> 0).
  { intros E. now apply Hw, dot_self_zero. }
  assert (Hpp : Vec.dot p p <> 0).
  { intros E. now apply Hp, dot_self_zero. }
  apply (Rmult_integral_contrapositive_currified _ _ Hww Hpp). lra.
Qed.

End RIC.

(** C9.  For every origin state whose position and velocity are non-zero
    and not parallel, the three rows of the rotation matrix that _to_ric
    builds from the origin (radial, in-track, cross-track) are unit
    vectors and orthogonal to each other; this matrix is the one _to_ric
    multiplies its argument with. *)
Theorem ric_rows_orthonormal (origin : State.t) :
  State.position origin <> Vec.zero ->
  State.velocity origin <> Vec.zero ->
  ~ Vec.parallel (State.position origin) (State.velocity origin) ->
  let M := StateCompare.ric_matrix origin in
  Vec.unit (Vec.row0 M) /\ Vec.unit (Vec.row1 M) /\ Vec.unit (Vec.row2 M)
  /\ Vec.orthogonal (Vec.row0 M) (Vec.row1 M)
  /\ Vec.orthogonal (Vec.row0 M) (Vec.row2 M)
  /\ Vec.orthogonal (Vec.row1 M) (Vec.row2 M)
  /\ forall (target : State.t) (vector : Vec.t),
       StateCompare._to_ric vector (StateCompare.mk origin target true) =
         (inr (Vec.mdot M vector), StateCompare.mk origin target true).
Proof.
  intros Hp _ Hn M.
  pose proof (cross_track_nonzero Hp Hn) as Hw.
  pose proof (in_track_nonzero Hp Hw) as Hs.
  subst M. unfold StateCompare.ric_matrix. cbn [Vec.row0 Vec.row1 Vec.row2].
  repeat split.
  - now apply normalized_unit.
  - now apply normalized_unit.
  - now apply normalized_unit.
  - apply normalized_orthogonal; trivial.
    rewrite dot_comm. apply cross_orthogonal_r.
  - apply normalized_orthogonal; trivial.
    rewrite dot_comm. apply cross_orthogonal_l.
  - apply normalized_orthogonal; trivial. apply cross_orthogonal_l.
Qed.

Lemma ric_rows_orthonormal_witness :
  let M := StateCompare.ric_matrix (Sample.origin "EME2000") in
  Vec.unit (Vec.row0 M) /\ Vec.unit (Vec.row1 M) /\ Vec.unit (Vec.row2 M)
  /\ Vec.orthogonal (Vec.row0 M) (Vec.row1 M)
  /\ Vec.orthogonal (Vec.row0 M) (Vec.row2 M)
  /\ Vec.orthogonal (Vec.row1 M) (Vec.row2 M)
  /\ forall (target : State.t) (vector : Vec.t),
       StateCompare._to_ric vector
         (StateCompare.mk (Sample.origin "EME2000") target true) =
         (inr (Vec.mdot M vector),
          StateCompare.mk (Sample.origin "EME2000") target true).
Proof.
  apply (@ric_rows_orthonormal (Sample.origin "EME2000")).
  - intros H. apply (f_equal Vec.x) in H. cbn in H. lra.
  - intros H. apply (f_equal Vec.y) in H. cbn in H. lra.
  - intros [k [H | H]].
    + apply (f_equal Vec.y) in H. cbn in H. lra.
    + apply (f_equal Vec.x) in H. cbn in H. lra.
Defined.

(* ================================================================= *)
(** ** SegmentCompare: evaluation at an epoch *)

(** The only exception of the StateCompare constructor is the mismatch. *)
Lemma init_raises (origin target : State.t) (log : list Warning) (e : exn) :
  fst (StateCompare.__init__ origin target log) = inl e ->
  e = ValueError StateCompare.mismatch_message.
Proof.
  unfold StateCompare.__init__.
  destruct ((State.epoch origin =? State.epoch target)%Z
            && (State.frame origin =? State.frame target)%string
            && (State.center origin =? State.center target)%string) eqn:E.
  - apply shared_test in E.
    destruct (init_shared_returns log E) as (sc & log' & H).
    unfold StateCompare.__init__ in H.
    rewrite (proj2 (shared_test origin target) E) in H.
    rewrite H. discriminate.
  - cbn. congruence.
Qed.

Section SegmentCompareFacts.

Context {tools : SpanTools}.

Import SegmentCompare.

Lemma contains_run (w : world) (epoch : Epoch) :
  __contains__ epoch w = (inr (inside w epoch), w).
Proof. reflexivity. Qed.

Lemma call_outside (w : world) (epoch : Epoch) :
  inside w epoch = false ->
  __call__ epoch w = (inl (ValueError (not_contained_message epoch)), w).
Proof.
  intros H. unfold __call__, bind. rewrite contains_run, H. reflexivity.
Qed.

Lemma call_inside (w : world) (epoch : Epoch) (ts os : State.t) :
  inside w epoch = true ->
  EphemerisSegment.__call__ (_target (self w)) epoch = inr ts ->
  EphemerisSegment.__call__ (_origin (self w)) epoch = inr os ->
  __call__ epoch w =
    (fst (StateCompare.__init__ os ts (log w)),
     set_log w (snd (StateCompare.__init__ os ts (log w)))).
Proof.
  intros H Ht Ho. unfold __call__, bind. rewrite contains_run, H.
  cbn [negb get lift]. rewrite Ht, Ho. unfold zoom, State_sub.
  now destruct (StateCompare.__init__ os ts (log w)).
Qed.

Lemma next_created_empty (w : world) (step_size : Z) :
  _span (self w) = None ->
  next (steps step_size) w = (inl (TypeError unpack_message), w).
Proof.
  intros H. unfold steps, next, bind, get. now rewrite H.
Qed.


(** C5, as the code has it.  Where the segments evaluate at the epochs
    the comparison contains, evaluating the comparison at an epoch
    fails with the ValueError whose message names that epoch (and
    nothing else) if and only if the comparison does not contain the
    epoch; this failure leaves the comparison and the log of warnings
    as they were. *)
Theorem call_fails_outside_span (w : world) (epoch : Epoch) :
  (inside w epoch = true ->
   (exists ts, EphemerisSegment.__call__ (_target (self w)) epoch = inr ts)
   /\ (exists os, EphemerisSegment.__call__ (_origin (self w)) epoch = inr os)) ->
  __contains__ epoch w = (inr (inside w epoch), w)
  /\ (fst (__call__ epoch w) = inl (ValueError (not_contained_message epoch))
      <-> inside w epoch = false)
  /\ (inside w epoch = false -> snd (__call__ epoch w) = w)
  /\ not_contained_message epoch =
       [Text "Epoch "; Fmt epoch; Text " not contained in SegmentCompare."].
Proof.
  intros Hseg. split; [apply contains_run | ].
  split; [ | split; [ | reflexivity]].
  - split.
    + intros Hfail. destruct (inside w epoch) eqn:E; [ | reflexivity].
      destruct (Hseg eq_refl) as [[ts Ht] [os Ho]].
      rewrite (call_inside w epoch E Ht Ho) in Hfail. cbn [fst] in Hfail.
      apply init_raises in Hfail. discriminate Hfail.
    + intros E. now rewrite (call_outside w epoch E).
  - intros E. now rewrite (call_outside w epoch E).
Qed.

(** C6.  At an epoch the comparison contains and at which the two
    segments evaluate to states sharing epoch, frame and centre,
    evaluating the comparison returns the StateCompare constructed
    from the evaluated origin state and the evaluated target state;
    its position is the evaluated target position minus the evaluated
    origin position. *)
Theorem call_is_target_minus_origin
    (w : world) (epoch : Epoch) (ts os : State.t) :
  inside w epoch = true ->
  EphemerisSegment.__call__ (_target (self w)) epoch = inr ts ->
  EphemerisSegment.__call__ (_origin (self w)) epoch = inr os ->
  shared os ts ->
  exists sc log',
    __call__ epoch w = (inr sc, set_log w log')
    /\ StateCompare.__init__ os ts (log w) = (inr sc, log')
    /\ StateCompare._origin sc = os
    /\ StateCompare._target sc = ts
    /\ fst (StateCompare.position sc) =
         inr (Vec.sub (State.position ts) (State.position os)).
Proof.
  intros Hin Ht Ho Hs.
  destruct (init_shared_returns (log w) Hs) as (sc & log' & Hinit).
  exists sc, log'. rewrite (call_inside w epoch Hin Ht Ho), Hinit.
  destruct (init_inversion _ _ _ Hinit) as (_ & Hosc & Htsc & _).
  repeat split; trivial.
  unfold StateCompare.position, bind, get, ret. cbn. now rewrite Hosc, Htsc.
Qed.

(** C7, as the code has it.  steps makes no check of step_size.  On an
    empty comparison the first request fails with the TypeError of the
    unpacking, whatever the step.  Otherwise step_size goes unchanged,
    with the two bounds of the span, to time_range, and the first
    request does what the first request to that iterator does: it
    raises the same exception, or ends, or yields the evaluation of the
    comparison at the epoch received. *)
Theorem steps_hands_step_to_time_range (w : world) (step_size : Z) :
  match _span (self w) with
  | None =>
      next (steps step_size) w = (inl (TypeError unpack_message), w)
  | Some (start, stop) =>
      let epochs := time_range start stop step_size in
      match it_next epochs (it_start epochs) with
      | inl e => next (steps step_size) w = (inl e, w)
      | inr None => next (steps step_size) w = (inr None, w)
      | inr (Some (epoch, s')) =>
          next (steps step_size) w =
            (match fst (__call__ epoch w) with
             | inl e => inl e
             | inr sc => inr (Some (sc, Suspended (it_advance epochs s')))
             end,
             snd (__call__ epoch w))
      end
  end.
Proof.
  unfold steps, next, bind, get.
  destruct (_span (self w)) as [[start stop] | ]; [ | reflexivity].
  cbv zeta. unfold resume.
  destruct (it_next (time_range start stop step_size)
              (it_start (time_range start stop step_size)))
    as [e | [[epoch s'] | ]]; try reflexivity.
  unfold bind, ret. now destruct (__call__ epoch w) as [[e | sc] w'].
Qed.

(** C10.  On a comparison whose span is absent, for every step size the
    first request to the generator of steps fails with the TypeError of
    unpacking the absent span; it does not end the iteration, and the
    comparison is left as it was. *)
Theorem steps_fails_on_empty (w : world) (step_size : Z) :
  fst (is_empty w) = inr true ->
  next (steps step_size) w = (inl (TypeError unpack_message), w)
  /\ fst (next (steps step_size) w) <> inr None
  /\ forall n, fst (take (S n) (steps step_size) w)
               = inl (TypeError unpack_message).
Proof.
  intros H.
  assert (Hspan : _span (self w) = None).
  { unfold is_empty, bind, get, ret in H. cbn in H.
    destruct (_span (self w)); [discriminate H | reflexivity]. }
  pose proof (next_created_empty w step_size Hspan) as Hnext.
  split; [exact Hnext | ]. split.
  - rewrite Hnext. discriminate.
  - intros n. cbn [take]. unfold bind. now rewrite Hnext.
Qed.

End SegmentCompareFacts.

Local Open Scope Z_scope.

(** The sample comparisons are those the constructor builds, with the
    span utilities of the specification. *)
Example active_constructed :
  SegmentCompare.__init__ (tools := spec_tools)
    (Sample.origin_segment (0, 10)) (Sample.target_segment (0, 10)) tt
  = (inr (SegmentCompare.self (Sample.active 0 10)), tt).
Proof. reflexivity. Qed.

Example empty_constructed :
  SegmentCompare.__init__ (tools := spec_tools)
    (Sample.origin_segment (0, 10)) (Sample.target_segment (20, 30)) tt
  = (inr (SegmentCompare.self Sample.empty), tt).
Proof. reflexivity. Qed.

Example frame_mismatch_rejected :
  SegmentCompare.__init__ (tools := spec_tools)
    (Sample.segment "GCRF" (0, 10) Vec.zero Vec.zero)
    (Sample.target_segment (0, 10)) tt
  = (inl (ValueError SegmentCompare.mismatch_message), tt).
Proof. reflexivity. Qed.

(** Sampling the active comparison over [0, 10] every 5 ticks gives the
    comparisons at the epochs 0, 5 and 10, and then the iteration ends. *)
Example steps_of_five :
  option_map (map (fun sc => State.epoch (StateCompare._origin sc)))
    (match fst (SegmentCompare.take (tools := spec_tools) 4
                  (SegmentCompare.steps 5) (Sample.active 0 10)) with
     | inl _ => None
     | inr l => Some l
     end)
  = Some [0; 5; 10].
Proof. reflexivity. Qed.

Lemma call_fails_outside_span_witness :
  fst (SegmentCompare.__call__ (tools := spec_tools) 50 (Sample.active 0 10))
    = inl (ValueError (SegmentCompare.not_contained_message 50))
  /\ snd (SegmentCompare.__call__ (tools := spec_tools) 50 (Sample.active 0 10))
     = Sample.active 0 10.
Proof.
  destruct (@call_fails_outside_span spec_tools (Sample.active 0 10) 50%Z)
    as (_ & Hiff & Hsame & _).
  - intros _. split; eexists; reflexivity.
  - split; [apply Hiff | apply Hsame]; reflexivity.
Defined.

(** C5 fails as stated: the message of the failure holds the epoch and
    no bound of the span, and two comparisons with different spans fail
    with the same error at the same epoch. *)
Lemma call_error_omits_the_span :
  fst (SegmentCompare.__call__ (tools := spec_tools) 50 (Sample.active 0 10))
    = inl (ValueError [Text "Epoch "; Fmt 50%Z;
                       Text " not contained in SegmentCompare."])
  /\ fst (SegmentCompare.__call__ (tools := spec_tools) 50 (Sample.active 20 30))
     = fst (SegmentCompare.__call__ (tools := spec_tools) 50 (Sample.active 0 10))
  /\ SegmentCompare._span (SegmentCompare.self (Sample.active 0 10))
     = Some (0, 10)%Z
  /\ SegmentCompare._span (SegmentCompare.self (Sample.active 20 30))
     = Some (20, 30)%Z
  /\ formats (SegmentCompare.not_contained_message 50) 50 = true
  /\ formats (SegmentCompare.not_contained_message 50) 0 = false
  /\ formats (SegmentCompare.not_contained_message 50) 10 = false
  /\ ~ (exists span_of : exn -> option Span,
          forall w epoch,
            inside (tools := spec_tools) w epoch = false ->
            exists e,
              fst (SegmentCompare.__call__ (tools := spec_tools) epoch w)
                = inl e
              /\ span_of e = SegmentCompare._span (SegmentCompare.self w)).
Proof.
  repeat split; try reflexivity.
  intros [span_of H].
  destruct (H (Sample.active 0 10) 50%Z eq_refl) as (e1 & He1 & Hs1).
  destruct (H (Sample.active 20 30) 50%Z eq_refl) as (e2 & He2 & Hs2).
  cbn in He1, He2. injection He1 as <-. injection He2 as <-.
  rewrite Hs1 in Hs2. cbn in Hs2. discriminate Hs2.
Qed.

Lemma call_is_target_minus_origin_witness :
  exists sc log',
    SegmentCompare.__call__ (tools := spec_tools) 5 (Sample.active 0 10)
      = (inr sc, SegmentCompare.set_log (Sample.active 0 10) log')
    /\ StateCompare.__init__
         (State.mk 5 "EME2000" "EARTH" (Vec.mk 7000 0 0) (Vec.mk 0 (15 / 2) 0))
         (State.mk 5 "EME2000" "EARTH"
            (Vec.mk 7000 10 0) (Vec.mk 0 (15 / 2) (1 / 10)))
         [] = (inr sc, log')
    /\ StateCompare._origin sc =
         State.mk 5 "EME2000" "EARTH" (Vec.mk 7000 0 0) (Vec.mk 0 (15 / 2) 0)
    /\ StateCompare._target sc =
         State.mk 5 "EME2000" "EARTH"
           (Vec.mk 7000 10 0) (Vec.mk 0 (15 / 2) (1 / 10))
    /\ fst (StateCompare.position sc) =
         inr (Vec.sub (Vec.mk 7000 10 0) (Vec.mk 7000 0 0)).
Proof.
  apply (@call_is_target_minus_origin spec_tools (Sample.active 0 10) 5%Z);
    repeat split; reflexivity.
Defined.

(** C7 fails as stated: on the empty comparison a step of zero and a
    negative step fail with the TypeError of the unpacking, which is also
    the failure of a positive step, and not with an error about the
    argument. *)
Lemma steps_accepts_nonpositive_step :
  fst (SegmentCompare.next (tools := spec_tools)
         (SegmentCompare.steps 0) Sample.empty)
    = inl (TypeError SegmentCompare.unpack_message)
  /\ fst (SegmentCompare.next (tools := spec_tools)
            (SegmentCompare.steps (-60)) Sample.empty)
     = inl (TypeError SegmentCompare.unpack_message)
  /\ fst (SegmentCompare.next (tools := spec_tools)
            (SegmentCompare.steps 60) Sample.empty)
     = inl (TypeError SegmentCompare.unpack_message)
  /\ ~ (forall w step_size,
          (step_size <= 0)%Z ->
          exists m,
            fst (SegmentCompare.next (tools := spec_tools)
                   (SegmentCompare.steps step_size) w)
              = inl (ValueError m)).
Proof.
  repeat split; try reflexivity.
  intros H. destruct (H Sample.empty 0%Z) as [m Hm]; [lia | ].
  cbn in Hm. discriminate Hm.
Qed.

Lemma steps_fails_on_empty_witness :
  SegmentCompare.next (tools := spec_tools)
    (SegmentCompare.steps 60) Sample.empty
    = (inl (TypeError SegmentCompare.unpack_message), Sample.empty).
Proof.
  apply (@steps_fails_on_empty spec_tools Sample.empty 60%Z). reflexivity.
Defined.

(* ================================================================= *)
(** ** Further properties of StateCompare *)

Section StateCompareFacts.

Local Open Scope R_scope.

Lemma sub_self (a : Vec.t) : Vec.sub a a = Vec.zero.
Proof. unfold Vec.sub, Vec.zero. f_equal; ring. Qed.

Lemma norm_zero : Vec.norm Vec.zero = 0.
Proof.
  unfold Vec.norm, Vec.dot, Vec.zero. cbn.
  replace (0 * 0 + 0 * 0 + 0 * 0) with 0 by ring. apply sqrt_0.
Qed.


Lemma norm_sub_swap (a b : Vec.t) :
  Vec.norm (Vec.sub a b) = Vec.norm (Vec.sub b a).
Proof. unfold Vec.norm. f_equal. unfold Vec.dot, Vec.sub. cbn. ring. Qed.

Lemma sub_swap (a b : Vec.t) : Vec.sub a b = Vec.scale (-1) (Vec.sub b a).
Proof. unfold Vec.sub, Vec.scale. cbn. f_equal; ring. Qed.

Lemma shared_sym (a b : State.t) : shared a b -> shared b a.
Proof. unfold shared. intuition congruence. Qed.

Lemma position_run (sc : StateCompare.t) :
  StateCompare.position sc =
    (inr (Vec.sub (State.position (StateCompare._target sc))
                  (State.position (StateCompare._origin sc))), sc).
Proof. reflexivity. Qed.

Lemma range_run (sc : StateCompare.t) :
  StateCompare.range sc =
    (inr (Vec.norm (Vec.sub (State.position (StateCompare._target sc))
                            (State.position (StateCompare._origin sc)))), sc).
Proof. reflexivity. Qed.

(** X1.  On a comparison constructed from states whose frame is not one
    of the rotating frames, velocity is the target velocity minus the
    origin velocity and range_rate is the Euclidean norm of it; neither
    access changes the object. *)
Theorem velocity_range_rate_of_inertial
    (origin target : State.t) (log log' : list Warning) (sc : StateCompare.t) :
  StateCompare.__init__ origin target log = (inr sc, log') ->
  ~ frame_in (State.frame origin) ROTATING ->
  StateCompare.velocity sc =
    (inr (Vec.sub (State.velocity target) (State.velocity origin)), sc)
  /\ StateCompare.range_rate sc =
       (inr (Vec.norm (Vec.sub (State.velocity target)
                               (State.velocity origin))), sc).
Proof.
  intros H Hn. destruct (init_inversion _ _ _ H) as (_ & Ho & Ht & Hrot).
  assert (Hi : StateCompare._inertial sc = true).
  { destruct (StateCompare._inertial sc); [reflexivity | ].
    elim Hn. now apply Hrot. }
  rewrite (velocity_inertial sc Hi), (range_rate_inertial sc Hi), Ho, Ht.
  split; reflexivity.
Qed.

(** The first scenario: velocity (0, 0, 0.1) for frame EME2000. *)
Lemma velocity_range_rate_of_inertial_witness :
  let sc := StateCompare.mk
              (Sample.origin "EME2000") (Sample.target "EME2000") true in
  StateCompare.velocity sc =
    (inr (Vec.sub (Vec.mk 0 (15 / 2) (1 / 10)) (Vec.mk 0 (15 / 2) 0)), sc)
  /\ StateCompare.range_rate sc =
       (inr (Vec.norm (Vec.sub (Vec.mk 0 (15 / 2) (1 / 10))
                               (Vec.mk 0 (15 / 2) 0))), sc).
Proof.
  intros sc.
  apply (@velocity_range_rate_of_inertial
           (Sample.origin "EME2000") (Sample.target "EME2000") [] [] sc).
  - reflexivity.
  - rewrite <- frame_in_rotating. discriminate.
Defined.

(** X2.  Comparing a state with itself always succeeds and gives the
    zero position and the range zero, and, when the frame counts as
    inertial, the zero velocity and the range rate zero. *)
Theorem self_comparison (s : State.t) (log : list Warning) :
  exists sc log',
    StateCompare.__init__ s s log = (inr sc, log')
    /\ fst (StateCompare.position sc) = inr Vec.zero
    /\ fst (StateCompare.range sc) = inr 0
    /\ (StateCompare._inertial sc = true ->
        fst (StateCompare.velocity sc) = inr Vec.zero
        /\ fst (StateCompare.range_rate sc) = inr 0).
Proof.
  assert (Hs : shared s s) by (repeat split; reflexivity).
  destruct (init_shared_returns log Hs) as (sc & log' & H).
  destruct (init_inversion _ _ _ H) as (_ & Ho & Ht & _).
  exists sc, log'. split; [exact H | ].
  rewrite position_run, range_run, Ho, Ht, sub_self, norm_zero.
  split; [reflexivity | ]. split; [reflexivity | ].
  intros Hi. split.
  - now rewrite (velocity_inertial sc Hi), Ho, Ht, sub_self.
  - now rewrite (range_rate_inertial sc Hi), Ho, Ht, sub_self, norm_zero.
Qed.

(** X3.  Exchanging origin and target negates the position and keeps
    the range. *)
Theorem swap_negates_position
    (origin target : State.t) (log : list Warning) :
  shared origin target ->
  exists sc sc' l l' p r,
    StateCompare.__init__ origin target log = (inr sc, l)
    /\ StateCompare.__init__ target origin log = (inr sc', l')
    /\ fst (StateCompare.position sc) = inr p
    /\ fst (StateCompare.position sc') = inr (Vec.scale (-1) p)
    /\ fst (StateCompare.range sc) = inr r
    /\ fst (StateCompare.range sc') = inr r.
Proof.
  intros Hs.
  destruct (init_shared_returns log Hs) as (sc & l & H).
  destruct (init_shared_returns log (shared_sym Hs)) as (sc' & l' & H').
  destruct (init_inversion _ _ _ H) as (_ & Ho & Ht & _).
  destruct (init_inversion _ _ _ H') as (_ & Ho' & Ht' & _).
  exists sc, sc', l, l',
    (Vec.sub (State.position target) (State.position origin)),
    (Vec.norm (Vec.sub (State.position target) (State.position origin))).
  rewrite !position_run, !range_run, Ho, Ht, Ho', Ht'. cbn [fst].
  repeat split; trivial.
  - now rewrite <- sub_swap.
  - now rewrite norm_sub_swap.
Qed.

Lemma swap_negates_position_witness :
  exists sc sc' l l' p r,
    StateCompare.__init__
      (Sample.origin "EME2000") (Sample.target "EME2000") [] = (inr sc, l)
    /\ StateCompare.__init__
         (Sample.target "EME2000") (Sample.origin "EME2000") [] = (inr sc', l')
    /\ fst (StateCompare.position sc) = inr p
    /\ fst (StateCompare.position sc') = inr (Vec.scale (-1) p)
    /\ fst (StateCompare.range sc) = inr r
    /\ fst (StateCompare.range sc') = inr r.
Proof.
  apply (@swap_negates_position
           (Sample.origin "EME2000") (Sample.target "EME2000") []).
  repeat split; reflexivity.
Defined.




(** *** The RIC rotation *)

Lemma dot_div_l (a v : Vec.t) (s : R) :
  Vec.dot (Vec.div a s) v = Vec.dot a v / s.
Proof. unfold Vec.dot, Vec.div, Rdiv. cbn. ring. Qed.

Lemma sqr_div_norm (a v : Vec.t) :
  a <> Vec.zero ->
  (Vec.dot a v / Vec.norm a) * (Vec.dot a v / Vec.norm a) =
    Vec.dot a v * Vec.dot a v / Vec.dot a a.
Proof.
  intros Ha. pose proof (norm_nonzero Ha) as Hn.
  rewrite <- (norm_sqr a). now field.
Qed.

(** The squared projections on position, in-track and cross-track
    vectors add up to the squared length, before normalisation. *)
Lemma ric_projections (p u v : Vec.t) :
  let W := Vec.cross p u in
  let S := Vec.cross W p in
  Vec.dot p v * Vec.dot p v * Vec.dot W W
  + Vec.dot S v * Vec.dot S v
  + Vec.dot W v * Vec.dot W v * Vec.dot p p
  = Vec.dot v v * (Vec.dot p p * Vec.dot W W).
Proof.
  destruct p as [p1 p2 p3], u as [u1 u2 u3], v as [v1 v2 v3].
  unfold Vec.dot, Vec.cross. cbn. ring.
Qed.

Lemma in_track_dot_self (p u : Vec.t) :
  Vec.dot (Vec.cross (Vec.cross p u) p) (Vec.cross (Vec.cross p u) p) =
    Vec.dot (Vec.cross p u) (Vec.cross p u) * Vec.dot p p.
Proof. rewrite cross_dot_self, cross_orthogonal_l. ring. Qed.

(** Multiplying by the RIC matrix keeps the length of a vector. *)
Lemma ric_matrix_isometry (origin : State.t) (v : Vec.t) :
  State.position origin <> Vec.zero ->
  ~ Vec.parallel (State.position origin) (State.velocity origin) ->
  Vec.norm (Vec.mdot (StateCompare.ric_matrix origin) v) = Vec.norm v.
Proof.
  intros Hp Hn.
  pose proof (cross_track_nonzero Hp Hn) as Hw.
  pose proof (in_track_nonzero Hp Hw) as Hs.
  unfold Vec.norm. f_equal.
  unfold StateCompare.ric_matrix, Vec.mdot.
  cbn [Vec.row0 Vec.row1 Vec.row2].
  unfold Vec.dot at 1. cbn [Vec.x Vec.y Vec.z].
  rewrite !dot_div_l, (sqr_div_norm v Hp), (sqr_div_norm v Hs),
    (sqr_div_norm v Hw), in_track_dot_self.
  pose proof (ric_projections (State.position origin)
                (State.velocity origin) v) as Hid. cbv zeta in Hid.
  assert (Hpp : Vec.dot (State.position origin) (State.position origin) <> 0).
  { intros E. now apply Hp, dot_self_zero. }
  assert (Hww : Vec.dot (Vec.cross (State.position origin) (State.velocity origin))
                  (Vec.cross (State.position origin) (State.velocity origin))
                <> 0).
  { intros E. now apply Hw, dot_self_zero. }
  apply (Rmult_eq_reg_r
           (Vec.dot (State.position origin) (State.position origin)
            * Vec.dot (Vec.cross (State.position origin) (State.velocity origin))
                (Vec.cross (State.position origin) (State.velocity origin))));
    [ | now apply Rmult_integral_contrapositive_currified].
  rewrite <- Hid. now field.
Qed.

(** X5.  On a comparison whose flag is true and whose origin position and
    velocity are not parallel (the position not zero), the RIC vectors
    have the lengths of the vectors they come from: the norm of
    position_ric is the range and the norm of velocity_ric is the range
    rate. *)
Theorem ric_keeps_lengths (sc : StateCompare.t) :
  StateCompare._inertial sc = true ->
  State.position (StateCompare._origin sc) <> Vec.zero ->
  ~ Vec.parallel (State.position (StateCompare._origin sc))
                 (State.velocity (StateCompare._origin sc)) ->
  exists pr vr,
    fst (StateCompare.position_ric sc) = inr pr
    /\ fst (StateCompare.velocity_ric sc) = inr vr
    /\ fst (StateCompare.range sc) = inr (Vec.norm pr)
    /\ fst (StateCompare.range_rate sc) = inr (Vec.norm vr).
Proof.
  intros Hi Hp Hn. eexists. eexists.
  rewrite (position_ric_inertial sc Hi), (velocity_ric_inertial sc Hi),
    (range_rate_inertial sc Hi), range_run. cbn [fst].
  split; [reflexivity | ]. split; [reflexivity | ].
  now rewrite !ric_matrix_isometry by assumption.
Qed.

Lemma sample_not_parallel :
  ~ Vec.parallel (Vec.mk 7000 0 0) (Vec.mk 0 (15 / 2) 0).
Proof.
  intros [k [H | H]].
  - apply (f_equal Vec.y) in H. cbn in H. lra.
  - apply (f_equal Vec.x) in H. cbn in H. lra.
Defined.

Lemma sample_position_nonzero : Vec.mk 7000 0 0 <> Vec.zero.
Proof. intros H. apply (f_equal Vec.x) in H. cbn in H. lra. Defined.

Lemma ric_keeps_lengths_witness :
  let sc := StateCompare.mk
              (Sample.origin "EME2000") (Sample.target "EME2000") true in
  exists pr vr,
    fst (StateCompare.position_ric sc) = inr pr
    /\ fst (StateCompare.velocity_ric sc) = inr vr
    /\ fst (StateCompare.range sc) = inr (Vec.norm pr)
    /\ fst (StateCompare.range_rate sc) = inr (Vec.norm vr).
Proof.
  intros sc. apply (@ric_keeps_lengths sc).
  - reflexivity.
  - exact sample_position_nonzero.
  - exact sample_not_parallel.
Defined.

Lemma cross_div (a b : Vec.t) (s r : R) :
  s <> 0 -> r <> 0 ->
  Vec.cross (Vec.div a s) (Vec.div b r) = Vec.div (Vec.cross a b) (s * r).
Proof.
  intros Hs Hr. unfold Vec.cross, Vec.div. cbn. f_equal; now field.
Qed.

Lemma cross_in_track (p u : Vec.t) :
  Vec.cross p (Vec.cross (Vec.cross p u) p) =
    Vec.scale (Vec.dot p p) (Vec.cross p u).
Proof.
  destruct p as [p1 p2 p3], u as [u1 u2 u3].
  unfold Vec.cross, Vec.scale, Vec.dot. cbn. f_equal; ring.
Qed.

Lemma in_track_norm (p u : Vec.t) :
  Vec.norm (Vec.cross (Vec.cross p u) p) =
    Vec.norm (Vec.cross p u) * Vec.norm p.
Proof.
  unfold Vec.norm. rewrite in_track_dot_self.
  apply sqrt_mult; apply dot_self_nonneg.
Qed.

(** X6.  Under the same conditions the rows of the RIC matrix form a
    right-handed basis: the cross product of the radial row and the
    in-track row is the cross-track row. *)
Theorem ric_right_handed (origin : State.t) :
  State.position origin <> Vec.zero ->
  ~ Vec.parallel (State.position origin) (State.velocity origin) ->
  let M := StateCompare.ric_matrix origin in
  Vec.cross (Vec.row0 M) (Vec.row1 M) = Vec.row2 M.
Proof.
  intros Hp Hn M.
  pose proof (cross_track_nonzero Hp Hn) as Hw.
  pose proof (in_track_nonzero Hp Hw) as Hs.
  pose proof (norm_nonzero Hp) as Hnp.
  pose proof (norm_nonzero Hw) as Hnw.
  subst M. unfold StateCompare.ric_matrix. cbn [Vec.row0 Vec.row1 Vec.row2].
  rewrite (cross_div _ _ Hnp (norm_nonzero Hs)), cross_in_track, in_track_norm.
  rewrite <- (norm_sqr (State.position origin)).
  unfold Vec.div, Vec.scale. cbn. f_equal; now field.
Qed.

Lemma ric_right_handed_witness :
  let M := StateCompare.ric_matrix (Sample.origin "EME2000") in
  Vec.cross (Vec.row0 M) (Vec.row1 M) = Vec.row2 M.
Proof.
  apply (@ric_right_handed (Sample.origin "EME2000")).
  - exact sample_position_nonzero.
  - exact sample_not_parallel.
Defined.



(** The triangle inequality of the Euclidean norm. *)
Lemma dot_le_norms (a b : Vec.t) : Vec.dot a b <= Vec.norm a * Vec.norm b.
Proof.
  unfold Vec.norm. rewrite <- sqrt_mult by apply dot_self_nonneg.
  destruct (Rle_dec 0 (Vec.dot a b)) as [Hpos | Hneg].
  - rewrite <- (sqrt_square (Vec.dot a b) Hpos) at 1.
    apply sqrt_le_1_alt.
    pose proof (cross_dot_self a b) as Hl.
    pose proof (dot_self_nonneg (Vec.cross a b)). lra.
  - pose proof (sqrt_pos (Vec.dot a a * Vec.dot b b)). lra.
Qed.

Lemma norm_triangle (a b : Vec.t) :
  Vec.norm (Vec.mk (Vec.x a + Vec.x b) (Vec.y a + Vec.y b) (Vec.z a + Vec.z b))
  <= Vec.norm a + Vec.norm b.
Proof.
  set (c := Vec.mk _ _ _).
  assert (Hc : Vec.dot c c = Vec.dot a a + 2 * Vec.dot a b + Vec.dot b b).
  { unfold c, Vec.dot. cbn. ring. }
  pose proof (dot_le_norms a b) as Hab.
  pose proof (sqrt_pos (Vec.dot a a)) as Ha. fold (Vec.norm a) in Ha.
  pose proof (sqrt_pos (Vec.dot b b)) as Hb. fold (Vec.norm b) in Hb.
  rewrite <- (sqrt_square (Vec.norm a + Vec.norm b)) by lra.
  unfold Vec.norm at 1. apply sqrt_le_1_alt. rewrite Hc.
  pose proof (norm_sqr a). pose proof (norm_sqr b). nra.
Qed.

(** X8.  The ranges between three states that share epoch, frame and
    centre obey the triangle inequality: the range from the first to the
    third is at most the range from the first to the second plus the
    range from the second to the third. *)
Theorem range_triangle (a b c : State.t) (log : list Warning) :
  shared a b -> shared b c ->
  exists ab bc ac la lb lc rab rbc rac,
    StateCompare.__init__ a b log = (inr ab, la)
    /\ StateCompare.__init__ b c log = (inr bc, lb)
    /\ StateCompare.__init__ a c log = (inr ac, lc)
    /\ fst (StateCompare.range ab) = inr rab
    /\ fst (StateCompare.range bc) = inr rbc
    /\ fst (StateCompare.range ac) = inr rac
    /\ rac <= rab + rbc.
Proof.
  intros Hab Hbc.
  assert (Hac : shared a c).
  { unfold shared in *. intuition congruence. }
  destruct (init_shared_returns log Hab) as (ab & la & H1).
  destruct (init_shared_returns log Hbc) as (bc & lb & H2).
  destruct (init_shared_returns log Hac) as (ac & lc & H3).
  destruct (init_inversion _ _ _ H1) as (_ & Ho1 & Ht1 & _).
  destruct (init_inversion _ _ _ H2) as (_ & Ho2 & Ht2 & _).
  destruct (init_inversion _ _ _ H3) as (_ & Ho3 & Ht3 & _).
  exists ab, bc, ac, la, lb, lc.
  do 3 eexists. rewrite !range_run, Ho1, Ht1, Ho2, Ht2, Ho3, Ht3. cbn [fst].
  repeat (split; [first [eassumption | reflexivity] | ]).
  pose proof (norm_triangle
                (Vec.sub (State.position b) (State.position a))
                (Vec.sub (State.position c) (State.position b))) as Ht.
  replace (Vec.sub (State.position c) (State.position a))
    with (Vec.mk
            (Vec.x (Vec.sub (State.position b) (State.position a))
             + Vec.x (Vec.sub (State.position c) (State.position b)))
            (Vec.y (Vec.sub (State.position b) (State.position a))
             + Vec.y (Vec.sub (State.position c) (State.position b)))
            (Vec.z (Vec.sub (State.position b) (State.position a))
             + Vec.z (Vec.sub (State.position c) (State.position b)))).
  - exact Ht.
  - unfold Vec.sub. cbn. f_equal; ring.
Qed.

Lemma range_triangle_witness :
  exists ab bc ac la lb lc rab rbc rac,
    StateCompare.__init__
      (Sample.origin "EME2000") (Sample.target "EME2000") [] = (inr ab, la)
    /\ StateCompare.__init__
         (Sample.target "EME2000") (Sample.origin "EME2000") [] = (inr bc, lb)
    /\ StateCompare.__init__
         (Sample.origin "EME2000") (Sample.origin "EME2000") [] = (inr ac, lc)
    /\ fst (StateCompare.range ab) = inr rab
    /\ fst (StateCompare.range bc) = inr rbc
    /\ fst (StateCompare.range ac) = inr rac
    /\ rac <= rab + rbc.
Proof.
  apply (@range_triangle (Sample.origin "EME2000") (Sample.target "EME2000")
           (Sample.origin "EME2000") []);
    repeat split; reflexivity.
Defined.

(** X9.  The classification does not depend on the case of the letters
    of the frame: two constructions whose frames are equal up to case
    give the same flag and emit the same number of warnings. *)
Theorem classification_ignores_case
    (o1 t1 o2 t2 : State.t) (log : list Warning) :
  shared o1 t1 -> shared o2 t2 ->
  upper (State.frame o1) = upper (State.frame o2) ->
  exists sc1 sc2 l1 l2,
    StateCompare.__init__ o1 t1 log = (inr sc1, l1)
    /\ StateCompare.__init__ o2 t2 log = (inr sc2, l2)
    /\ StateCompare._inertial sc1 = StateCompare._inertial sc2
    /\ List.length l1 = List.length l2.
Proof.
  intros H1 H2 Hu.
  rewrite (init_shared log H1), (init_shared log H2), Hu.
  destruct (str_in (upper (State.frame o2)) INERTIAL);
    [ | destruct (str_in (upper (State.frame o2)) ROTATING)];
    do 4 eexists; repeat split; try reflexivity.
  now rewrite !length_app.
Qed.

Lemma classification_ignores_case_witness :
  exists sc1 sc2 l1 l2,
    StateCompare.__init__ (Sample.origin "Teme") (Sample.target "Teme") []
      = (inr sc1, l1)
    /\ StateCompare.__init__ (Sample.origin "tEME") (Sample.target "tEME") []
       = (inr sc2, l2)
    /\ StateCompare._inertial sc1 = StateCompare._inertial sc2
    /\ List.length l1 = List.length l2.
Proof.
  apply (@classification_ignores_case
           (Sample.origin "Teme") (Sample.target "Teme")
           (Sample.origin "tEME") (Sample.target "tEME") []);
    repeat split; reflexivity.
Defined.

End StateCompareFacts.

(* ================================================================= *)
(** ** Further properties of SegmentCompare *)

(** The constructor of StateCompare adds at most one warning to the log,
    and none when it fails. *)
Lemma init_log (origin target : State.t) (log : list Warning) :
  exists l,
    snd (StateCompare.__init__ origin target log) = log ++ l
    /\ (List.length l <= 1)%nat
    /\ (forall e, fst (StateCompare.__init__ origin target log) = inl e ->
                  l = []).
Proof.
  destruct ((State.epoch origin =? State.epoch target)%Z
            && (State.frame origin =? State.frame target)%string
            && (State.center origin =? State.center target)%string) eqn:E.
  - apply shared_test in E. rewrite (init_shared log E).
    destruct (str_in (upper (State.frame origin)) INERTIAL);
      [ | destruct (str_in (upper (State.frame origin)) ROTATING)].
    + exists []. cbn. rewrite app_nil_r. repeat split; trivial. lia.
    + exists []. cbn. rewrite app_nil_r. repeat split; trivial. lia.
    + eexists. cbn. split; [reflexivity | ]. split; [cbn; lia | ].
      intros e He. discriminate He.
  - assert (Hn : ~ shared origin target).
    { intros Hs. apply shared_test in Hs. congruence. }
    rewrite (init_not_shared log Hn). exists []. cbn.
    rewrite app_nil_r. repeat split; trivial. lia.
Qed.

Section SegmentCompareMore.

Context {tools : SpanTools}.

Import SegmentCompare.

Lemma world_eta (w : world) : World (self w) (log w) = w.
Proof. now destruct w. Qed.

(** What an evaluation does to the world, in every case. *)
Lemma call_effect (w : world) (epoch : Epoch) :
  exists l,
    snd (__call__ epoch w) = World (self w) (log w ++ l)
    /\ (List.length l <= 1)%nat
    /\ (forall e, fst (__call__ epoch w) = inl e -> l = []).
Proof.
  unfold __call__, bind. rewrite contains_run.
  assert (Hnil : exists l : list Warning,
             w = World (self w) (log w ++ l) /\ (List.length l <= 1)%nat
             /\ l = []).
  { exists []. rewrite app_nil_r, world_eta. repeat split. cbn. lia. }
  destruct (inside w epoch); cbn [negb];
    [ | destruct Hnil as (l & H1 & H2 & H3); exists l; cbn; auto].
  cbn [get lift].
  destruct (EphemerisSegment.__call__ (_target (self w)) epoch) as [e | ts];
    [destruct Hnil as (l & H1 & H2 & H3); exists l; cbn; auto | ].
  destruct (EphemerisSegment.__call__ (_origin (self w)) epoch) as [e | os];
    [destruct Hnil as (l & H1 & H2 & H3); exists l; cbn; auto | ].
  unfold zoom, State_sub.
  destruct (init_log os ts (log w)) as (l & Hl & Hlen & Hfail).
  destruct (StateCompare.__init__ os ts (log w)) as [r log'].
  cbn in *. exists l. subst log'. unfold set_log. auto.
Qed.

(** X10.  An evaluation of the comparison never changes the comparison
    object; it adds at most one warning to the log; and when it fails,
    for whatever reason, it changes nothing at all. *)
Theorem call_keeps_the_object (w : world) (epoch : Epoch) :
  self (snd (__call__ epoch w)) = self w
  /\ (exists l, log (snd (__call__ epoch w)) = log w ++ l
                /\ (List.length l <= 1)%nat)
  /\ (forall e, fst (__call__ epoch w) = inl e -> snd (__call__ epoch w) = w).
Proof.
  destruct (call_effect w epoch) as (l & Hw & Hlen & Hfail).
  rewrite Hw. cbn. split; [reflexivity | ]. split.
  - now exists l.
  - intros e He. rewrite (Hfail e He), app_nil_r. apply world_eta.
Qed.

(** X11.  Inside the span the target segment is evaluated first and its
    exception is raised unchanged; then the origin segment, likewise;
    and when the two states they return disagree in epoch, frame or
    centre, the evaluation fails with the mismatch error of
    StateCompare.  None of these failures changes anything. *)
Theorem call_propagates_failures (w : world) (epoch : Epoch) :
  inside w epoch = true ->
  (forall e,
     EphemerisSegment.__call__ (_target (self w)) epoch = inl e ->
     __call__ epoch w = (inl e, w))
  /\ (forall ts e,
        EphemerisSegment.__call__ (_target (self w)) epoch = inr ts ->
        EphemerisSegment.__call__ (_origin (self w)) epoch = inl e ->
        __call__ epoch w = (inl e, w))
  /\ (forall ts os,
        EphemerisSegment.__call__ (_target (self w)) epoch = inr ts ->
        EphemerisSegment.__call__ (_origin (self w)) epoch = inr os ->
        ~ shared os ts ->
        __call__ epoch w =
          (inl (ValueError StateCompare.mismatch_message), w)).
Proof.
  intros Hin. split; [ | split].
  - intros e Ht. unfold __call__, bind. rewrite contains_run, Hin.
    cbn [negb get lift]. now rewrite Ht.
  - intros ts e Ht Ho. unfold __call__, bind. rewrite contains_run, Hin.
    cbn [negb get lift]. now rewrite Ht, Ho.
  - intros ts os Ht Ho Hn.
    rewrite (call_inside w epoch Hin Ht Ho), (init_not_shared (log w) Hn).
    cbn. unfold set_log. now rewrite world_eta.
Qed.

(** X12.  On a comparison without overlap no epoch is contained and the
    evaluation fails at every epoch, changing nothing. *)
Theorem empty_contains_nothing (w : world) :
  fst (is_empty w) = inr true ->
  forall epoch,
    __contains__ epoch w = (inr false, w)
    /\ __call__ epoch w = (inl (ValueError (not_contained_message epoch)), w).
Proof.
  intros H epoch.
  assert (Hspan : _span (self w) = None).
  { unfold is_empty, bind, get, ret in H. cbn in H.
    destruct (_span (self w)); [discriminate H | reflexivity]. }
  assert (Hin : inside w epoch = false).
  { unfold inside. now rewrite Hspan. }
  split.
  - now rewrite contains_run, Hin.
  - now apply call_outside.
Qed.

(** X13.  The constructor of SegmentCompare accepts two segments exactly
    when their REF_FRAME and their CENTER_NAME agree: it then stores the
    overlap of the two spans and the two segments; otherwise it fails
    with its ValueError.  The spans play no part in the acceptance. *)
Theorem segment_init_accepts (St : Type)
    (origin target : EphemerisSegment.t) (st : St) :
  let mo := EphemerisSegment.metadata origin in
  let mt := EphemerisSegment.metadata target in
  (EphemerisSegment.REF_FRAME mo = EphemerisSegment.REF_FRAME mt
   /\ EphemerisSegment.CENTER_NAME mo = EphemerisSegment.CENTER_NAME mt ->
   __init__ origin target st =
     (inr (mk (epoch_span_overlap (EphemerisSegment.span origin)
                                  (EphemerisSegment.span target))
              origin target), st))
  /\ (EphemerisSegment.REF_FRAME mo <> EphemerisSegment.REF_FRAME mt
      \/ EphemerisSegment.CENTER_NAME mo <> EphemerisSegment.CENTER_NAME mt ->
      __init__ origin target st = (inl (ValueError mismatch_message), st)).
Proof.
  intros mo mt. unfold __init__. fold mo mt.
  destruct (String.eqb_spec (EphemerisSegment.REF_FRAME mo)
              (EphemerisSegment.REF_FRAME mt)) as [Hf | Hf];
    destruct (String.eqb_spec (EphemerisSegment.CENTER_NAME mo)
                (EphemerisSegment.CENTER_NAME mt)) as [Hc | Hc];
    cbn; split; intros H; try reflexivity; tauto.
Qed.

Lemma bind_run {St A B} (m : Py St A) (k : A -> Py St B) (s : St) :
  bind m k s =
    match m s with
    | (inl e, s') => (inl e, s')
    | (inr a, s') => k a s'
    end.
Proof. reflexivity. Qed.

(** The items of a suspended generator are the evaluations at the epochs
    of its iterator. *)
Lemma take_suspended (n : nat) :
  forall (epochs : iterator Epoch) (w : world),
    take n (Suspended epochs) w =
      (scs <- calls (fst (it_take n epochs)) ;;
       match snd (it_take n epochs) with
       | None => ret scs
       | Some e => raise e
       end)%py w.
Proof.
  induction n as [ | n IH]; intros epochs w; [reflexivity | ].
  cbn [take it_take next]. unfold resume.
  destruct (it_next epochs (it_start epochs)) as [e | [[epoch s'] | ]];
    try reflexivity.
  destruct (it_take n (it_advance epochs s')) as [l r] eqn:El.
  cbn [fst snd calls]. rewrite !bind_run.
  destruct (__call__ epoch w) as [[e | sc] w']; [reflexivity | ].
  unfold ret at 1. cbn beta iota. rewrite !bind_run, IH, El.
  cbn [fst snd]. rewrite bind_run.
  destruct (calls l w') as [[e | scs] w'']; [reflexivity | ].
  destruct r; reflexivity.
Qed.

(** X14.  On a comparison with an overlap, the first [n] items of steps
    are the evaluations of the comparison at the first [n] epochs of
    time_range(start, stop, step_size), in that order; the sampling
    fails where one of these evaluations fails, or else where time_range
    raises, with the same exception. *)
Theorem steps_maps_the_range
    (n : nat) (step_size : Z) (w : world) (start stop : Epoch) :
  _span (self w) = Some (start, stop) ->
  take n (steps step_size) w =
    (let epochs := it_take n (time_range start stop step_size) in
     scs <- calls (fst epochs) ;;
     match snd epochs with
     | None => ret scs
     | Some e => raise e
     end)%py w.
Proof.
  intros Hspan. cbv zeta. rewrite <- take_suspended.
  destruct n as [ | n]; [reflexivity | ].
  cbn [take next steps]. unfold bind at 1 3. unfold bind at 1, get.
  now rewrite Hspan.
Qed.

Lemma next_effect (g : generator) (w : world) :
  exists l,
    snd (next g w) = World (self w) (log w ++ l) /\ (List.length l <= 1)%nat.
Proof.
  assert (Hnil : exists l : list Warning,
             w = World (self w) (log w ++ l) /\ (List.length l <= 1)%nat).
  { exists []. rewrite app_nil_r, world_eta. split; [reflexivity | cbn; lia]. }
  assert (Hres : forall epochs, exists l,
             snd (resume epochs w) = World (self w) (log w ++ l)
             /\ (List.length l <= 1)%nat).
  { intros epochs. unfold resume.
    destruct (it_next epochs (it_start epochs)) as [e | [[epoch s'] | ]];
      try exact Hnil.
    unfold bind. destruct (call_effect w epoch) as (l & Hw & Hlen & _).
    exists l. destruct (__call__ epoch w) as [[e | sc] w']; cbn in *; auto. }
  destruct g as [step_size | epochs]; [ | apply Hres].
  unfold next, bind, get.
  destruct (_span (self w)) as [[start stop] | ]; [apply Hres | exact Hnil].
Qed.

(** X15.  Sampling never changes the comparison object: after any number
    of items of any generator of steps the object is the same, and the
    log has grown by at most one warning for each item requested. *)
Theorem take_keeps_the_object (n : nat) :
  forall (g : generator) (w : world),
    self (snd (take n g w)) = self w
    /\ exists l, log (snd (take n g w)) = log w ++ l
                 /\ (List.length l <= n)%nat.
Proof.
  induction n as [ | n IH]; intros g w.
  - cbn. split; [reflexivity | ]. exists []. now rewrite app_nil_r.
  - cbn [take]. rewrite bind_run.
    destruct (next_effect g w) as (l1 & Hw1 & Hlen1).
    destruct (next g w) as [[e | [[sc g'] | ]] w1]; cbn [snd] in Hw1; subst w1.
    + cbn. split; [reflexivity | ]. exists l1. split; [reflexivity | lia].
    + rewrite bind_run.
      destruct (IH g' (World (self w) (log w ++ l1))) as (Hs & l2 & Hl & Hlen2).
      destruct (take n g' (World (self w) (log w ++ l1))) as [[e | scs] w2];
        cbn in *; (split; [exact Hs | ]);
        exists (l1 ++ l2); rewrite app_assoc, length_app;
        (split; [exact Hl | lia]).
    + cbn. split; [reflexivity | ]. exists l1. split; [reflexivity | lia].
Qed.

(** X16.  The check of the constructor pays off at every evaluation: for
    a comparison built by the constructor from two segments that answer
    for themselves, an evaluation inside the span at which both segments
    return a state never fails, and its result compares these two
    states. *)
Theorem constructed_comparison_evaluates (St : Type)
    (origin target : EphemerisSegment.t) (st st' : St) (sc : t)
    (warnings : list Warning) (epoch : Epoch) (ts os : State.t) :
  __init__ origin target st = (inr sc, st') ->
  conforming origin -> conforming target ->
  inside (World sc warnings) epoch = true ->
  EphemerisSegment.__call__ target epoch = inr ts ->
  EphemerisSegment.__call__ origin epoch = inr os ->
  exists cmp w',
    __call__ epoch (World sc warnings) = (inr cmp, w')
    /\ StateCompare._origin cmp = os
    /\ StateCompare._target cmp = ts.
Proof.
  intros Hinit Hco Hct Hin Ht Ho.
  unfold __init__ in Hinit.
  destruct ((EphemerisSegment.REF_FRAME (EphemerisSegment.metadata origin)
             =? EphemerisSegment.REF_FRAME (EphemerisSegment.metadata target))%string
            && (EphemerisSegment.CENTER_NAME (EphemerisSegment.metadata origin)
                =? EphemerisSegment.CENTER_NAME
                     (EphemerisSegment.metadata target))%string) eqn:E;
    [ | discriminate Hinit].
  apply andb_true_iff in E. destruct E as [Ef Ec].
  apply String.eqb_eq in Ef, Ec.
  injection Hinit as <- _.
  destruct (Hco _ _ Ho) as (Hoe & Hof & Hoc).
  destruct (Hct _ _ Ht) as (Hte & Htf & Htc).
  assert (Hs : shared os ts).
  { unfold shared. rewrite Hoe, Hte, Hof, Htf, Hoc, Htc. auto. }
  destruct (init_shared_returns warnings Hs) as (cmp & log' & Hcmp).
  destruct (init_inversion _ _ _ Hcmp) as (_ & Hcmp_o & Hcmp_t & _).
  exists cmp, (set_log (World (mk (epoch_span_overlap
                                      (EphemerisSegment.span origin)
                                      (EphemerisSegment.span target))
                                   origin target) warnings) log').
  split; [ | now split].
  rewrite (@call_inside _ _ epoch ts os Hin Ht Ho). cbn [log].
  now rewrite Hcmp.
Qed.

End SegmentCompareMore.

Lemma call_propagates_failures_witness :
  SegmentCompare.__call__ (tools := spec_tools) 5
    (Sample.comparison 0 10
       (Sample.origin_segment (0, 10)) (Sample.failing_segment (0, 10)))
  = (inl (ValueError [Text "Epoch "; Fmt 5;
                      Text " not contained in EphemerisSegment."]),
     Sample.comparison 0 10
       (Sample.origin_segment (0, 10)) (Sample.failing_segment (0, 10)))
  /\ SegmentCompare.__call__ (tools := spec_tools) 5
       (Sample.comparison 0 10
          (Sample.failing_segment (0, 10)) (Sample.target_segment (0, 10)))
     = (inl (ValueError [Text "Epoch "; Fmt 5;
                         Text " not contained in EphemerisSegment."]),
        Sample.comparison 0 10
          (Sample.failing_segment (0, 10)) (Sample.target_segment (0, 10)))
  /\ SegmentCompare.__call__ (tools := spec_tools) 5
       (Sample.comparison 0 10
          (Sample.origin_segment (0, 10)) (Sample.straying_segment (0, 10)))
     = (inl (ValueError StateCompare.mismatch_message),
        Sample.comparison 0 10
          (Sample.origin_segment (0, 10)) (Sample.straying_segment (0, 10))).
Proof.
  split; [ | split].
  - apply (proj1 (@call_propagates_failures spec_tools
                    (Sample.comparison 0 10
                       (Sample.origin_segment (0, 10))
                       (Sample.failing_segment (0, 10))) 5 eq_refl)).
    reflexivity.
  - eapply (proj1 (proj2 (@call_propagates_failures spec_tools
                    (Sample.comparison 0 10
                       (Sample.failing_segment (0, 10))
                       (Sample.target_segment (0, 10))) 5 eq_refl)));
      reflexivity.
  - eapply (proj2 (proj2 (@call_propagates_failures spec_tools
                    (Sample.comparison 0 10
                       (Sample.origin_segment (0, 10))
                       (Sample.straying_segment (0, 10))) 5 eq_refl)));
      try reflexivity.
    intros (_ & Hf & _). cbn in Hf. discriminate Hf.
Defined.

Lemma empty_contains_nothing_witness :
  SegmentCompare.__contains__ (tools := spec_tools) 5 Sample.empty
    = (inr false, Sample.empty)
  /\ SegmentCompare.__call__ (tools := spec_tools) 5 Sample.empty
     = (inl (ValueError (SegmentCompare.not_contained_message 5)),
        Sample.empty).
Proof.
  apply (@empty_contains_nothing spec_tools Sample.empty). reflexivity.
Defined.

Lemma segment_init_accepts_witness :
  SegmentCompare.__init__ (tools := spec_tools)
    (Sample.origin_segment (0, 10)) (Sample.target_segment (20, 30)) tt
  = (inr (SegmentCompare.mk None
            (Sample.origin_segment (0, 10)) (Sample.target_segment (20, 30))),
     tt)
  /\ SegmentCompare.__init__ (tools := spec_tools)
       (Sample.segment "GCRF" (0, 10) Vec.zero Vec.zero)
       (Sample.target_segment (0, 10)) tt
     = (inl (ValueError SegmentCompare.mismatch_message), tt).
Proof.
  split.
  - apply (proj1 (@segment_init_accepts spec_tools unit
                    (Sample.origin_segment (0, 10))
                    (Sample.target_segment (20, 30)) tt)).
    split; reflexivity.
  - apply (proj2 (@segment_init_accepts spec_tools unit
                    (Sample.segment "GCRF" (0, 10) Vec.zero Vec.zero)
                    (Sample.target_segment (0, 10)) tt)).
    left. cbn. discriminate.
Defined.

Lemma steps_maps_the_range_witness :
  SegmentCompare.take (tools := spec_tools) 4
    (SegmentCompare.steps 5) (Sample.active 0 10)
  = (scs <- calls (tools := spec_tools) [0; 5; 10] ;; ret scs)%py
      (Sample.active 0 10).
Proof.
  exact (@steps_maps_the_range spec_tools 4 5 (Sample.active 0 10) 0 10
           eq_refl).
Defined.

Lemma sample_segment_conforming (frame : string) (span : Span) (p v : Vec.t) :
  conforming (Sample.segment frame span p v).
Proof.
  intros epoch state H. cbn in H. injection H as <-. cbn. auto.
Defined.

Lemma constructed_comparison_evaluates_witness :
  exists cmp w',
    SegmentCompare.__call__ (tools := spec_tools) 5 (Sample.active 0 10)
      = (inr cmp, w')
    /\ StateCompare._origin cmp
       = State.mk 5 "EME2000" "EARTH" (Vec.mk 7000 0 0) (Vec.mk 0 (15 / 2) 0)
    /\ StateCompare._target cmp
       = State.mk 5 "EME2000" "EARTH"
           (Vec.mk 7000 10 0) (Vec.mk 0 (15 / 2) (1 / 10)).
Proof.
  apply (@constructed_comparison_evaluates spec_tools unit
           (Sample.origin_segment (0, 10)) (Sample.target_segment (0, 10))
           tt tt (SegmentCompare.self (Sample.active 0 10)) [] 5).
  - reflexivity.
  - apply sample_segment_conforming.
  - apply sample_segment_conforming.
  - reflexivity.
  - reflexivity.
  - reflexivity.
Defined.
